(** * Off-chain product filter: simpleFilter, orFilter, andFilter, filterProducts

    A shallow embedding of [Off-chain/Filter.py] and of the loop of
    [Off-chain/main.py] that starts filtering sessions.

    Python lists are mutable objects that the filters share with their
    caller, so the embedding keeps an explicit store of list objects and
    passes references around; exceptions leave the store as it was at the
    moment they were raised. *)

From Stdlib Require Import ZArith String Ascii DecimalString.
From stdpp Require Import gmap strings list.

Open Scope string_scope.
Open Scope Z_scope.
Open Scope list_scope.

(** ** Python values, exceptions and the comparison operators *)

(** The values a record attribute or a comparison operand can hold:
    integers (ids, carbon footprints, lots), strings (names, addresses)
    and booleans (isEnded). *)
Inductive pyval :=
  | VInt (z : Z)
  | VStr (s : string)
  | VBool (b : bool).

(** The exceptions the filter code can raise. *)
Inductive exn :=
  | AttributeError
  | KeyError
  | TypeError
  | ValueError.

Inductive outcome (A : Type) :=
  | Ok (a : A)
  | Raise (e : exn).
Arguments Ok {A} a.
Arguments Raise {A} e.

(** The callables [select_operator] can return, and [operator.eq] which
    [filterProducts] uses directly for the equality-only fields. *)
Inductive binop := op_eq | op_gt | op_ge | op_lt | op_le.

(** [bool] is a subclass of [int]: [True] counts as 1 and [False] as 0. *)
Definition as_int (v : pyval) : option Z :=
  match v with
  | VInt z => Some z
  | VBool b => Some (Z.b2z b)
  | VStr _ => None
  end.

(** [operator.eq] never raises: values of unrelated types are unequal. *)
Definition py_eq (a b : pyval) : bool :=
  match a, b with
  | VStr s, VStr t => String.eqb s t
  | VStr _, _ | _, VStr _ => false
  | _, _ => match as_int a, as_int b with
            | Some x, Some y => Z.eqb x y
            | _, _ => false
            end
  end.

(** The ordering operators compare numbers with numbers and strings with
    strings (lexicographically); a string against a number is a TypeError. *)
Definition py_cmp (a b : pyval) : outcome comparison :=
  match a, b with
  | VStr s, VStr t => Ok (String.compare s t)
  | VStr _, _ | _, VStr _ => Raise TypeError
  | _, _ => match as_int a, as_int b with
            | Some x, Some y => Ok (Z.compare x y)
            | _, _ => Raise TypeError
            end
  end.

Definition cmp_holds (o : binop) (c : comparison) : bool :=
  match o, c with
  | op_eq, Eq => true
  | op_gt, Gt => true
  | op_ge, (Gt | Eq) => true
  | op_lt, Lt => true
  | op_le, (Lt | Eq) => true
  | _, _ => false
  end.

Definition apply_op (o : binop) (a b : pyval) : outcome bool :=
  match o with
  | op_eq => Ok (py_eq a b)
  | _ => match py_cmp a b with
         | Ok c => Ok (cmp_holds o c)
         | Raise e => Raise e
         end
  end.

(** ** Records and criteria *)

(** A candidate record: a product object of the ledger snapshot, or the
    [args] of a raw-material-used event.  Either shape carries the integer
    id of the product it belongs to (the ledger's key) next to its named
    attributes. *)
Record record := {
  rid : Z;
  rattrs : gmap string pyval;
}.

(** [getattr(e, name)] on a product object; [e.productId] is [rid]. *)
Definition getattr (e : record) (name : string) : outcome pyval :=
  if String.eqb name "productId" then Ok (VInt (rid e))
  else match rattrs e !! name with
       | Some v => Ok v
       | None => Raise AttributeError
       end.

(** [e["args"][name]] on an event; [e["args"]["pId"]] is [rid]. *)
Definition getitem_args (e : record) (name : string) : outcome pyval :=
  if String.eqb name "pId" then Ok (VInt (rid e))
  else match rattrs e !! name with
       | Some v => Ok v
       | None => Raise KeyError
       end.

(** The [criteria] dictionary; [elements] is the sequence the stored
    reader hands back when [simpleFilter] calls it. *)
Record criteria := {
  elements : list record;
  value : pyval;
  field : string;
  operator : binop;
  event : bool;
}.

(** ** The store of list objects *)

Definition loc := nat.

(** [heap] holds every list object created so far; [printed] the tables
    [print_products] has written. *)
Record state := {
  heap : list (list Z);
  printed : list (list Z);
}.

Definition M (A : Type) : Type := state -> outcome A * state.

Definition ret {A} (a : A) : M A := fun st => (Ok a, st).

Definition raise {A} (e : exn) : M A := fun st => (Raise e, st).

Definition bind {A B} (m : M A) (k : A -> M B) : M B :=
  fun st =>
    match m st with
    | (Ok a, st') => k a st'
    | (Raise e, st') => (Raise e, st')
    end.

Definition lift {A} (o : outcome A) : M A := fun st => (o, st).

Notation "x <~ m ; k" := (bind m (fun x => k))
  (at level 100, m at next level, k at level 200, right associativity).
Notation "m >> k" := (bind m (fun _ => k))
  (at level 100, k at level 200, right associativity).

(** A list display or [list.copy()]: a new object. *)
Definition new_list (xs : list Z) : M loc :=
  fun st => (Ok (length (heap st)),
             {| heap := heap st ++ [xs]; printed := printed st |}).

(** The current contents of a list object. *)
Definition read (l : loc) : M (list Z) :=
  fun st => (Ok (default [] (heap st !! l)), st).

Definition write (l : loc) (xs : list Z) : M unit :=
  fun st => (Ok tt, {| heap := <[l := xs]> (heap st); printed := printed st |}).

(** [l.append(x)] *)
Definition append (l : loc) (x : Z) : M unit :=
  xs <~ read l ; write l (xs ++ [x]).

(** [list.remove] drops the first occurrence and raises ValueError when
    there is none. *)
Fixpoint remove_first (x : Z) (xs : list Z) : option (list Z) :=
  match xs with
  | [] => None
  | y :: ys => if Z.eqb y x then Some ys
               else match remove_first x ys with
                    | Some ys' => Some (y :: ys')
                    | None => None
                    end
  end.

(** [l.remove(x)] *)
Definition list_remove (l : loc) (x : Z) : M unit :=
  xs <~ read l ;
  match remove_first x xs with
  | Some xs' => write l xs'
  | None => raise ValueError
  end.

(** [x in l] *)
Definition contains (l : loc) (x : Z) : M bool :=
  xs <~ read l ; ret (bool_decide (x ∈ xs)).

(** [for e in xs: body(e)] over a sequence that the body does not change. *)
Fixpoint for_each {A} (xs : list A) (body : A -> M unit) : M unit :=
  match xs with
  | [] => ret tt
  | x :: xs' => body x >> for_each xs' body
  end.

(** ** Filter.py *)

Definition simpleFilter (result : loc) (c : criteria) : M loc :=
  let elements := elements c in
  (if event c then
     for_each elements (fun e =>
       v <~ lift (getitem_args e (field c)) ;
       b <~ lift (apply_op (operator c) v (value c)) ;
       if b then append result (rid e) else ret tt)
   else
     for_each elements (fun e =>
       v <~ lift (getattr e (field c)) ;
       b <~ lift (apply_op (operator c) v (value c)) ;
       if b then append result (rid e) else ret tt)) >>
  ret result.

(** [list(set(result))]: the set is a [gset], its listing [elements]. *)
Definition list_set (xs : list Z) : list Z :=
  base.elements (list_to_set xs : gset Z).

Definition orFilter (result : loc) (c : criteria) : M loc :=
  simpleFilter result c >>
  xs <~ read result ;
  new_list (list_set xs).

Definition andFilter (result : loc) (c : criteria) : M loc :=
  fresh <~ new_list [] ;
  temp <~ simpleFilter fresh c ;
  xs <~ read result ;
  temp2 <~ new_list xs ;
  ys <~ read temp2 ;
  for_each ys (fun e =>
    found <~ contains temp e ;
    if negb found then list_remove result e else ret tt) >>
  ret result.

(** [print_products(ids)] looks every id up and writes one table. *)
Definition print_products (ids : loc) : M unit :=
  xs <~ read ids ;
  fun st => (Ok tt, {| heap := heap st; printed := printed st ++ [xs] |}).

(** The two readers a criterion can name: [BlockChain.get_all_products]
    and [event_logs.get_raw_materials_used_events]. *)
Record ledger := {
  get_all_products : list record;
  get_raw_materials_used_events : list record;
}.

(** What the user answers to "Select a field" and to the prompts that
    follow it. *)
Inductive field_choice :=
  | Id (op : binop) (answer : Z)
  | Name (answer : string)
  | Owner (answer : string)
  | CF (op : binop) (answer : Z)
  | Ended (answer : bool)
  | Supplier (answer : string)
  | Transformer (answer : string)
  | RawMaterial (answer : string).

(** What the user answers after the table: look at one product, chain
    another filter with AND or OR, or leave. *)
Inductive session :=
  | ViewDetails (f : field_choice) (id : Z)
  | AddAnd (f : field_choice) (next : session)
  | AddOr (f : field_choice) (next : session)
  | Exit (f : field_choice).

(** The third argument of [filterProducts]: the filter to run. *)
Inductive filters := use_simpleFilter | use_andFilter | use_orFilter.

Definition run_filter (f : filters) : loc -> criteria -> M loc :=
  match f with
  | use_simpleFilter => simpleFilter
  | use_andFilter => andFilter
  | use_orFilter => orFilter
  end.

Section FilterProducts.

(** [Web3.toChecksumAddress], and the ledger the readers read. *)
Variable toChecksumAddress : string -> string.
Variable chain : ledger.

Definition build_criteria (f : field_choice) : criteria :=
  match f with
  | Id op v =>
      {| elements := get_all_products chain; value := VInt v;
         field := "productId"; operator := op; event := false |}
  | Name v =>
      {| elements := get_all_products chain; value := VStr v;
         field := "name"; operator := op_eq; event := false |}
  | Owner v =>
      {| elements := get_all_products chain;
         value := VStr (toChecksumAddress v);
         field := "address"; operator := op_eq; event := false |}
  | CF op v =>
      {| elements := get_all_products chain; value := VInt v;
         field := "CF"; operator := op; event := false |}
  | Ended v =>
      {| elements := get_all_products chain; value := VBool v;
         field := "isEnded"; operator := op_eq; event := false |}
  | Supplier v =>
      {| elements := get_raw_materials_used_events chain; value := VStr v;
         field := "supplier"; operator := op_eq; event := true |}
  | Transformer v =>
      {| elements := get_raw_materials_used_events chain; value := VStr v;
         field := "transformer"; operator := op_eq; event := true |}
  | RawMaterial v =>
      {| elements := get_raw_materials_used_events chain; value := VStr v;
         field := "name"; operator := op_eq; event := true |}
  end.

Definition chosen (s : session) : field_choice :=
  match s with
  | ViewDetails f _ | AddAnd f _ | AddOr f _ | Exit f => f
  end.

(** One call of [filterProducts] and the calls it makes to itself.
    [detailed_print] builds the text of one product and drops it, so
    "View one product details" leaves the store and the output alone. *)
Fixpoint filterProducts (results : loc) (flt : filters) (s : session)
  : M unit :=
  let criteria := build_criteria (chosen s) in
  results <~ run_filter flt results criteria ;
  xs <~ read results ;
  (if (0 <? length xs)%nat then print_products results else ret tt) >>
  match s with
  | ViewDetails _ _ => ret tt
  | AddAnd _ next => filterProducts results use_andFilter next
  | AddOr _ next => filterProducts results use_orFilter next
  | Exit _ => ret tt
  end.

(** The list object that the [def] statement built once for
    [results=[]]: the first object of the store. *)
Definition default_results : loc := 0%nat.

Definition module_loaded : state := {| heap := [[]]; printed := [] |}.

(** The loop of [main]: every "Search one or more products" is a call
    [action()] with no argument, so with the default [results]. *)
Definition main_loop (sessions : list session) : M unit :=
  for_each sessions (filterProducts default_results use_simpleFilter).

End FilterProducts.

(** ** The two operations as their caller sees them *)

Inductive mode := AND | OR.

Definition empty_store : state := {| heap := []; printed := [] |}.

(** The list a computation hands back, from an empty store. *)
Definition returned (m : M loc) : outcome (list Z) :=
  fst ((r <~ m ; read r) empty_store).

(** [simpleFilter([], criteria)] *)
Definition evaluate (c : criteria) : outcome (list Z) :=
  returned (l <~ new_list [] ; simpleFilter l c).

(** [andFilter(accumulated, criteria)] or [orFilter(accumulated, criteria)] *)
Definition compose (accumulated : list Z) (c : criteria) (m : mode)
  : outcome (list Z) :=
  returned (l <~ new_list accumulated ;
            match m with
            | AND => andFilter l c
            | OR => orFilter l c
            end).

(** ** What one scan of the candidate records does *)

(** The left operand of the comparison: the named field of a record,
    read the way the branch taken reads it. *)
Definition lookup_field (c : criteria) (e : record) : outcome pyval :=
  if event c then getitem_args e (field c) else getattr e (field c).

(** The condition of the [if] in the loops of [simpleFilter]. *)
Definition satisfies (c : criteria) (e : record) : outcome bool :=
  match lookup_field c e with
  | Ok v => apply_op (operator c) v (value c)
  | Raise x => Raise x
  end.

(** The field of the criterion is an attribute of the record. *)
Definition recognized (c : criteria) (e : record) : Prop :=
  exists v, lookup_field c e = Ok v.

(** The operator of the criterion can compare the field of the record
    with the value of the criterion. *)
Definition compatible (c : criteria) (e : record) : Prop :=
  forall v, lookup_field c e = Ok v ->
            exists b, apply_op (operator c) v (value c) = Ok b.

(** The exception a record makes the comparison raise when its field is
    missing or the operator cannot compare it. *)
Definition fault (c : criteria) (e : record) : exn :=
  match lookup_field c e with
  | Raise _ => if event c then KeyError else AttributeError
  | Ok _ => TypeError
  end.

(** The ids a scan appends, in order, and the exception that ends it
    early if there is one. *)
Fixpoint scan (c : criteria) (es : list record) : list Z * option exn :=
  match es with
  | [] => ([], None)
  | e :: es' =>
      match satisfies c e with
      | Raise x => ([], Some x)
      | Ok b => ((if b then [rid e] else []) ++ (scan c es').1, (scan c es').2)
      end
  end.

Definition appended (c : criteria) : list Z := (scan c (elements c)).1.
Definition raised (c : criteria) : option exn := (scan c (elements c)).2.

Definition finish {A} (r : option exn) (a : A) : outcome A :=
  match r with
  | None => Ok a
  | Some x => Raise x
  end.

(** The store with object [l] replaced. *)
Definition set_obj (l : loc) (xs : list Z) (st : state) : state :=
  {| heap := <[l := xs]> (heap st); printed := printed st |}.

(** The store with one more object. *)
Definition add_obj (xs : list Z) (st : state) : state :=
  {| heap := heap st ++ [xs]; printed := printed st |}.

(** ** Sample ledgers and criteria *)

Definition product (i : Z) (name owner : string) (cf : Z) (ended : bool)
  : record :=
  {| rid := i;
     rattrs := <["name" := VStr name]> (<["address" := VStr owner]>
               (<["CF" := VInt cf]> (<["isEnded" := VBool ended]> ∅))) |}.

Definition raw_material_used (p : Z) (name supplier transformer : string)
  : record :=
  {| rid := p;
     rattrs := <["name" := VStr name]> (<["supplier" := VStr supplier]>
               (<["transformer" := VStr transformer]> ∅)) |}.

Definition sample_chain : ledger :=
  {| get_all_products :=
       [product 1 "chair" "0xA1" 50 false;
        product 2 "table" "0xB2" 120 true;
        product 3 "shelf" "0xA1" 80 false];
     get_raw_materials_used_events :=
       [raw_material_used 7 "oak" "0x51" "0xA1";
        raw_material_used 7 "glue" "0x52" "0xA1";
        raw_material_used 7 "pine" "0x51" "0xA1"] |}.

(** Owner address with the operator "Greater". *)
Definition owner_greater : criteria :=
  {| elements := get_all_products sample_chain; value := VStr "0xA1";
     field := "address"; operator := op_gt; event := false |}.

(** A field no product has. *)
Definition unknown_field : criteria :=
  {| elements := get_all_products sample_chain; value := VInt 1;
     field := "colour"; operator := op_eq; event := false |}.

(** The same field, and an operator that cannot compare a string with a
    number, over a source that supplies no record. *)
Definition unknown_field_no_records : criteria :=
  {| elements := []; value := VInt 1;
     field := "colour"; operator := op_gt; event := false |}.

(** Carbon footprint at least 80. *)
Definition cf_at_least_80 : criteria :=
  {| elements := get_all_products sample_chain; value := VInt 80;
     field := "CF"; operator := op_ge; event := false |}.

(** Raw materials of supplier 0x51: two events of product 7. *)
Definition supplied_by_0x51 : criteria :=
  {| elements := get_raw_materials_used_events sample_chain;
     value := VStr "0x51"; field := "supplier"; operator := op_eq;
     event := true |}.

(** Raw material named glue: one event of product 7 out of three. *)
Definition uses_glue : criteria :=
  {| elements := get_raw_materials_used_events sample_chain;
     value := VStr "glue"; field := "name"; operator := op_eq;
     event := true |}.

(** A second record without the field the criterion names. *)
Definition second_record_fails : criteria :=
  {| elements := [product 1 "chair" "0xA1" 50 false;
                  {| rid := 2; rattrs := ∅ |}];
     value := VInt 10; field := "CF"; operator := op_gt; event := false |}.

(** A store whose only object is the accumulated list [[9]]. *)
Definition store_with_9 : state := {| heap := [[9]]; printed := [] |}.

(** ** Python strings *)

(** [len(s)] *)
Definition len (s : string) : Z := Z.of_nat (String.length s).

(** [str(n)] for an integer. *)
Definition str_int (n : Z) : string :=
  DecimalString.NilZero.string_of_int (Z.to_int n).

(** [s * n]: no copy when [n] is not positive. *)
Fixpoint str_repeat (s : string) (n : nat) : string :=
  match n with
  | O => ""
  | S n' => s +:+ str_repeat s n'
  end.

Definition str_mul (s : string) (n : Z) : string := str_repeat s (Z.to_nat n).

(** [s.strip(' ')], from the left and from the right. *)
Fixpoint lstrip (s : string) : string :=
  match s with
  | EmptyString => EmptyString
  | String c s' => if Ascii.eqb c " " then lstrip s' else s
  end.

Fixpoint rstrip (s : string) : string :=
  match s with
  | EmptyString => EmptyString
  | String c s' =>
      match rstrip s' with
      | EmptyString => if Ascii.eqb c " " then EmptyString
                       else String c EmptyString
      | r => String c r
      end
  end.

Definition strip (s : string) : string := rstrip (lstrip s).

(** ** off_chain/models.py *)

Module RawMaterial.

(** [material_id] and [transformer_address] default to [None]. *)
Record t := {
  material_id : option Z;
  name : string;
  lot : Z;
  address : string;
  cf : Z;
  is_used : bool;
  transformer_address : option string;
}.

(** The three padded columns that [__str__] builds before it joins them
    with the two addresses. *)
Definition name_column (self : t) : string :=
  if len (name self) <=? 25 then
    let length := len (name self) in
    let padding := str_mul " " (30 - length) in
    name self +:+ padding
  else
    substring 0 22 (name self) +:+ "..." +:+ str_mul " " 5.

Definition lot_column (self : t) : string :=
  if len (str_int (lot self)) <=? 6 then
    let padding := str_mul " " (11 - len (str_int (lot self))) in
    str_int (lot self) +:+ padding
  else
    let padding := str_mul " " 5 in
    str_int (lot self) +:+ padding.

Definition cf_column (self : t) : string :=
  if len (str_int (cf self)) <? 6 then
    let padding := str_mul " " (11 - len (str_int (cf self))) in
    str_int (cf self) +:+ padding
  else
    let padding := str_mul " " 5 in
    str_int (cf self) +:+ padding.

(** [str(x)] of an address that may be [None]. *)
Definition str_optional (a : option string) : string :=
  match a with
  | Some s => s
  | None => "None"
  end.

Definition __str__ (self : t) : string :=
  name_column self +:+ lot_column self +:+ cf_column self +:+
  address self +:+ str_optional (transformer_address self).

End RawMaterial.

Module Transformation.

Record t := {
  transformer : string;
  cf : Z;
}.

End Transformation.

Module Product.

(** [product_id] defaults to [None]; [transformations] and
    [rawMaterials] start empty and are filled from the events. *)
Record t := {
  product_id : option Z;
  name : string;
  address : string;
  cf : Z;
  is_ended : bool;
  transformations : list Transformation.t;
  rawMaterials : list RawMaterial.t;
}.

(** One row of [raw_materials_printable] in [__str__]: the name, cut
    when it is long, the lot, the carbon footprint and the supplier. *)
Definition printable_name (raw : RawMaterial.t) : string :=
  if 25 <? len (RawMaterial.name raw)
  then substring 0 22 (RawMaterial.name raw) +:+ "..."
  else RawMaterial.name raw.

Definition raw_materials_printable (self : t)
  : list (string * Z * Z * string) :=
  (fun raw => (printable_name raw, RawMaterial.lot raw, RawMaterial.cf raw,
               RawMaterial.address raw)) <$> rawMaterials self.

End Product.

(** ** off_chain/transformer.py *)

(** [get_updatable_user_products], over the products the ledger reader
    hands back. *)
Definition get_updatable_user_products (all_products : list Product.t)
    (user_address : string) : list Product.t :=
  filter (fun p => Product.address p = user_address /\
                   Product.is_ended p = false) all_products.

(** [len(x)] of the result of a comparison: a bool has no length. *)
Definition len_of_bool (b : bool) : outcome Z := Raise TypeError.

(** The label of one choice in the menu of [transfer_product]:
    [product.name[:22]+"..." if len(product.name > 25) else product.name]. *)
Definition transfer_label (product : Product.t) : outcome string :=
  match py_cmp (VStr (Product.name product)) (VInt 25) with
  | Raise x => Raise x
  | Ok c =>
      match len_of_bool (cmp_holds op_gt c) with
      | Raise x => Raise x
      | Ok n => Ok (if n =? 0 then Product.name product
                    else substring 0 22 (Product.name product) +:+ "...")
      end
  end.

(** The list comprehension that builds the choices of the menu. *)
Fixpoint comprehension {A B} (f : A -> outcome B) (xs : list A)
  : outcome (list B) :=
  match xs with
  | [] => Ok []
  | x :: xs' =>
      match f x with
      | Raise e => Raise e
      | Ok y => match comprehension f xs' with
                | Raise e => Raise e
                | Ok ys => Ok (y :: ys)
                end
      end
  end.

(** The choices [transfer_product] offers to a user. *)
Definition transfer_product_choices (all_products : list Product.t)
    (user_address : string) : outcome (list (string * option Z)) :=
  let user_products := get_updatable_user_products all_products user_address in
  comprehension (fun product =>
    match transfer_label product with
    | Raise x => Raise x
    | Ok label => Ok (label, Product.product_id product)
    end) user_products.

(** The choices [add_transformation] offers to a user. *)
Definition add_transformation_choices (all_products : list Product.t)
    (user_address : string) : outcome (list (string * option Z)) :=
  let user_products := get_updatable_user_products all_products user_address in
  comprehension (fun product =>
    Ok (Product.name product, Product.product_id product)) user_products.

(** ** off_chain/controller_supplier.py *)

(** The four lists [create_raw_materials_on_blockchain] fills, one entry
    of each per raw material, before it hands them to the contract. *)
Record createRawMaterials_args := {
  rm_name_list : list string;
  rm_lot_list : list Z;
  rm_cf_list : list Z;
  rm_tr_list : list (option string);
}.

Definition append_raw_mat (args : createRawMaterials_args)
    (raw_mat : RawMaterial.t) : createRawMaterials_args :=
  {| rm_name_list := rm_name_list args ++ [RawMaterial.name raw_mat];
     rm_lot_list := rm_lot_list args ++ [RawMaterial.lot raw_mat];
     rm_cf_list := rm_cf_list args ++ [RawMaterial.cf raw_mat];
     rm_tr_list := rm_tr_list args ++
                   [RawMaterial.transformer_address raw_mat] |}.

Definition create_raw_materials_args (raw_materials : list RawMaterial.t)
  : createRawMaterials_args :=
  foldl append_raw_mat
    {| rm_name_list := []; rm_lot_list := []; rm_cf_list := [];
       rm_tr_list := [] |}
    raw_materials.

(** ** off_chain/validation.py *)

(** A character of the class [[a-zA-Z0-9 ]]. *)
Definition is_alnum (c : ascii) : bool :=
  let n := nat_of_ascii c in
  ((97 <=? n) && (n <=? 122) || (65 <=? n) && (n <=? 90) ||
   (48 <=? n) && (n <=? 57))%nat.

Definition in_class (c : ascii) : bool := is_alnum c || Ascii.eqb c " ".

Fixpoint all_in_class (s : string) : bool :=
  match s with
  | EmptyString => true
  | String c s' => in_class c && all_in_class s'
  end.

(** [[a-zA-Z0-9 ]{2,50}] over the whole of [s]. *)
Definition class_2_50 (s : string) : bool :=
  (all_in_class s && (2 <=? String.length s) && (String.length s <=? 50))%nat.

(** [s] without the line feed it ends with, if it ends with one. *)
Fixpoint before_final_newline (s : string) : option string :=
  match s with
  | EmptyString => None
  | String c EmptyString =>
      if Ascii.eqb c "010" then Some EmptyString else None
  | String c s' =>
      match before_final_newline s' with
      | Some t => Some (String c t)
      | None => None
      end
  end.

(** [re.match("^[a-zA-Z0-9 ]{2,50}$", s)]: the dollar sign also matches
    just before a line feed that ends the string. *)
Definition re_match_name (s : string) : bool :=
  class_2_50 s ||
  match before_final_newline s with
  | Some t => class_2_50 t
  | None => false
  end.

Inductive validated :=
  | ReturnsTrue
  | ValidationError.

Definition name_input_validation (answers : gmap string string)
    (current : string) : validated :=
  if re_match_name (strip current) then ReturnsTrue else ValidationError.

(** ** Sample raw materials and products *)

Definition oak : RawMaterial.t :=
  {| RawMaterial.material_id := Some 4; RawMaterial.name := "oak";
     RawMaterial.lot := 12; RawMaterial.address := "0x51";
     RawMaterial.cf := 7; RawMaterial.is_used := false;
     RawMaterial.transformer_address := Some "0xA1" |}.

Definition glue : RawMaterial.t :=
  {| RawMaterial.material_id := None;
     RawMaterial.name := "two-component polyurethane glue";
     RawMaterial.lot := 3; RawMaterial.address := "0x52";
     RawMaterial.cf := 1; RawMaterial.is_used := false;
     RawMaterial.transformer_address := None |}.

Definition chair : Product.t :=
  {| Product.product_id := Some 1; Product.name := "chair";
     Product.address := "0xA1"; Product.cf := 50;
     Product.is_ended := false; Product.transformations := [];
     Product.rawMaterials := [oak; glue] |}.

Definition table : Product.t :=
  {| Product.product_id := Some 2; Product.name := "table";
     Product.address := "0xB2"; Product.cf := 120;
     Product.is_ended := true;
     Product.transformations :=
       [{| Transformation.transformer := "0xB2"; Transformation.cf := 20 |}];
     Product.rawMaterials := [] |}.

(** ** Records that pass, typed ledgers and whole sessions *)

(** The record is appended: the comparison could be made and held. *)
Definition passes (c : criteria) (e : record) : bool :=
  match satisfies c e with
  | Ok true => true
  | _ => false
  end.

(** The attributes [print_products] reads off a product next to its id,
    with the types the prompts of [filterProducts] compare them with. *)
Definition product_typed (e : record) : Prop :=
  (exists s, rattrs e !! "name" = Some (VStr s)) /\
  (exists s, rattrs e !! "address" = Some (VStr s)) /\
  (exists z, rattrs e !! "CF" = Some (VInt z)) /\
  (exists b, rattrs e !! "isEnded" = Some (VBool b)).

(** The arguments of a raw-material-used event that [filterProducts]
    names. *)
Definition event_typed (e : record) : Prop :=
  (exists s, rattrs e !! "supplier" = Some (VStr s)) /\
  (exists s, rattrs e !! "transformer" = Some (VStr s)) /\
  (exists s, rattrs e !! "name" = Some (VStr s)).

Definition ledger_typed (chain : ledger) : Prop :=
  Forall product_typed (get_all_products chain) /\
  Forall event_typed (get_raw_materials_used_events chain).



(** * Properties *)

(** ** Running a computation step by step *)

Lemma bind_ok {A B} (m : M A) (k : A -> M B) st a st' :
  m st = (Ok a, st') -> bind m k st = k a st'.
Proof. intros H. unfold bind. by rewrite H. Qed.

Lemma bind_raise {A B} (m : M A) (k : A -> M B) st x st' :
  m st = (Raise x, st') -> bind m k st = (Raise x, st').
Proof. intros H. unfold bind. by rewrite H. Qed.

(** ** The store *)

Lemma set_obj_same l xs st :
  heap st !! l = Some xs -> set_obj l xs st = st.
Proof.
  intros H. destruct st as [h p]. unfold set_obj. simpl in *.
  f_equal. by apply list_insert_id.
Qed.

Lemma set_obj_lookup l xs st :
  (l < length (heap st))%nat -> heap (set_obj l xs st) !! l = Some xs.
Proof. intros H. simpl. by apply list_lookup_insert_eq. Qed.

Lemma set_obj_twice l xs ys st :
  set_obj l ys (set_obj l xs st) = set_obj l ys st.
Proof. unfold set_obj. simpl. f_equal. apply list_insert_insert_eq. Qed.

Lemma lookup_valid (st : state) (l : loc) (xs : list Z) :
  heap st !! l = Some xs -> (l < length (heap st))%nat.
Proof. apply lookup_lt_Some. Qed.

Lemma append_run l x xs st :
  heap st !! l = Some xs ->
  append l x st = (Ok tt, set_obj l (xs ++ [x]) st).
Proof.
  intros H. unfold append, bind, read, write, set_obj. by rewrite H.
Qed.

(** ** simpleFilter *)

Lemma satisfies_event c e :
  event c = true ->
  satisfies c e =
    match getitem_args e (field c) with
    | Ok v => apply_op (operator c) v (value c)
    | Raise x => Raise x
    end.
Proof. intros H. unfold satisfies, lookup_field. by rewrite H. Qed.

Lemma satisfies_entity c e :
  event c = false ->
  satisfies c e =
    match getattr e (field c) with
    | Ok v => apply_op (operator c) v (value c)
    | Raise x => Raise x
    end.
Proof. intros H. unfold satisfies, lookup_field. by rewrite H. Qed.

(** A loop whose body appends [rid e] when [satisfies c e] says so does
    what [scan] lists. *)
Lemma loop_run (c : criteria) (result : loc) (body : record -> M unit) :
  (forall e st, body e st =
     match satisfies c e with
     | Ok true => append result (rid e) st
     | Ok false => (Ok tt, st)
     | Raise x => (Raise x, st)
     end) ->
  forall es S st,
    heap st !! result = Some S ->
    for_each es body st =
      (finish (scan c es).2 tt, set_obj result (S ++ (scan c es).1) st).
Proof.
  intros Hbody es. induction es as [|e es IH]; intros S st HS.
  - simpl. rewrite app_nil_r. by rewrite set_obj_same.
  - cbn [for_each scan]. unfold bind at 1. rewrite Hbody.
    destruct (satisfies c e) as [[|]|x].
    + rewrite (append_run _ _ S) by done.
      rewrite (IH (S ++ [rid e])).
      * rewrite set_obj_twice. simpl. by rewrite <- app_assoc.
      * apply set_obj_lookup. by eapply lookup_valid.
    + simpl. by apply IH.
    + simpl. rewrite app_nil_r. by rewrite set_obj_same.
Qed.

Lemma simpleFilter_run result S c st :
  heap st !! result = Some S ->
  simpleFilter result c st =
    (finish (raised c) result, set_obj result (S ++ appended c) st).
Proof.
  intros HS. unfold simpleFilter, raised, appended.
  unfold bind at 1.
  assert (Hloop : forall body,
    (forall e st, body e st =
       match satisfies c e with
       | Ok true => append result (rid e) st
       | Ok false => (Ok tt, st)
       | Raise x => (Raise x, st)
       end) ->
    (let (o, st') := for_each (elements c) body st in
     match o with
     | Ok _ => ret result st'
     | Raise e => (Raise e, st')
     end) =
    (finish (scan c (elements c)).2 result,
     set_obj result (S ++ (scan c (elements c)).1) st)).
  { intros body Hbody. rewrite (loop_run c result body Hbody _ S) by done.
    by destruct (scan c (elements c)).2. }
  destruct (event c) eqn:Hev; apply Hloop; intros e st0.
  - rewrite satisfies_event by done. unfold bind, lift.
    destruct (getitem_args e (field c)); [|done].
    by destruct (apply_op (operator c) a (value c)) as [[|]|].
  - rewrite satisfies_entity by done. unfold bind, lift.
    destruct (getattr e (field c)); [|done].
    by destruct (apply_op (operator c) a (value c)) as [[|]|].
Qed.

(** ** list.remove *)

Lemma remove_first_app (x : Z) (K ys : list Z) :
  x ∉ K -> remove_first x (K ++ x :: ys) = Some (K ++ ys).
Proof.
  induction K as [|k K IH]; intros Hx; simpl.
  - by rewrite Z.eqb_refl.
  - apply not_elem_of_cons in Hx as [Hne HK].
    destruct (Z.eqb_spec k x) as [->|_]; [done|].
    by rewrite IH.
Qed.

(** ** The store after allocation *)

Lemma add_obj_lookup_old xs st (l : loc) :
  (l < length (heap st))%nat -> heap (add_obj xs st) !! l = heap st !! l.
Proof. intros H. simpl. by apply lookup_app_l. Qed.

Lemma add_obj_lookup_new xs st :
  heap (add_obj xs st) !! length (heap st) = Some xs.
Proof. simpl. by apply list_lookup_middle. Qed.

Lemma set_obj_new xs ys st :
  set_obj (length (heap st)) xs (add_obj ys st) = add_obj xs st.
Proof.
  unfold set_obj, add_obj. simpl. f_equal.
  rewrite insert_app_r_alt by lia. by rewrite Nat.sub_diag.
Qed.

Lemma set_obj_length l xs st :
  length (heap (set_obj l xs st)) = length (heap st).
Proof. simpl. apply length_insert. Qed.

Lemma set_obj_lookup_ne l l' xs st :
  l <> l' -> heap (set_obj l xs st) !! l' = heap st !! l'.
Proof. intros H. simpl. by apply list_lookup_insert_ne. Qed.

Lemma new_list_run xs st :
  new_list xs st = (Ok (length (heap st)), add_obj xs st).
Proof. done. Qed.

Lemma read_run l xs st :
  heap st !! l = Some xs -> read l st = (Ok xs, st).
Proof. intros H. unfold read. by rewrite H. Qed.

Lemma contains_run l x xs st :
  heap st !! l = Some xs ->
  contains l x st = (Ok (bool_decide (x ∈ xs)), st).
Proof.
  intros H. unfold contains. by rewrite (bind_ok _ _ _ _ _ (read_run _ _ _ H)).
Qed.

Lemma list_remove_run l x xs xs' st :
  heap st !! l = Some xs ->
  remove_first x xs = Some xs' ->
  list_remove l x st = (Ok tt, set_obj l xs' st).
Proof.
  intros H Hrm. unfold list_remove.
  rewrite (bind_ok _ _ _ _ _ (read_run _ _ _ H)). by rewrite Hrm.
Qed.

(** ** orFilter *)

Lemma orFilter_run result S c st :
  heap st !! result = Some S ->
  orFilter result c st =
    match raised c with
    | None =>
        (Ok (length (heap st)),
         add_obj (list_set (S ++ appended c))
           (set_obj result (S ++ appended c) st))
    | Some x => (Raise x, set_obj result (S ++ appended c) st)
    end.
Proof.
  intros HS. unfold orFilter.
  pose proof (simpleFilter_run _ _ c _ HS) as Hrun.
  destruct (raised c) as [x|]; simpl in Hrun.
  - by rewrite (bind_raise _ _ _ _ _ Hrun).
  - rewrite (bind_ok _ _ _ _ _ Hrun).
    erewrite bind_ok.
    2:{ apply read_run, set_obj_lookup. by eapply lookup_valid. }
    rewrite new_list_run. by rewrite set_obj_length.
Qed.

(** ** andFilter *)

(** The loop of [andFilter]: [K] is what the loop has kept so far, [ys]
    what it still has to visit. *)
Lemma remove_loop (result temp : loc) (ids : list Z) :
  temp <> result ->
  forall ys K st,
    heap st !! result = Some (K ++ ys) ->
    heap st !! temp = Some ids ->
    (forall x, x ∈ K -> x ∈ ids) ->
    for_each ys (fun e =>
      found <~ contains temp e ;
      if negb found then list_remove result e else ret tt) st =
    (Ok tt, set_obj result (K ++ filter (fun x => x ∈ ids) ys) st).
Proof.
  intros Hne ys. induction ys as [|y ys IH]; intros K st HR HT HK.
  - simpl. by rewrite set_obj_same.
  - cbn [for_each].
    destruct (decide (y ∈ ids)) as [Hy|Hy].
    + erewrite bind_ok.
      2:{ erewrite bind_ok by (by apply contains_run).
          rewrite bool_decide_eq_true_2 by done. reflexivity. }
      rewrite filter_cons_True by done.
      rewrite (IH (K ++ [y])).
      * by rewrite <- app_assoc.
      * by rewrite <- app_assoc.
      * done.
      * intros x Hx. apply elem_of_app in Hx as [Hx|Hx]; [by apply HK|].
        apply list_elem_of_singleton in Hx. by subst.
    + erewrite bind_ok.
      2:{ erewrite bind_ok by (by apply contains_run).
          rewrite bool_decide_eq_false_2 by done. simpl negb.
          eapply list_remove_run; [done|].
          apply remove_first_app. intros Hin. by apply Hy, HK. }
      rewrite filter_cons_False by done.
      rewrite (IH K).
      * by rewrite set_obj_twice.
      * apply set_obj_lookup. by eapply lookup_valid.
      * by rewrite set_obj_lookup_ne.
      * done.
Qed.

Lemma andFilter_run result S c st :
  heap st !! result = Some S ->
  andFilter result c st =
    match raised c with
    | None =>
        (Ok result,
         set_obj result (filter (fun x => x ∈ appended c) S)
           (add_obj S (add_obj (appended c) st)))
    | Some x => (Raise x, add_obj (appended c) st)
    end.
Proof.
  intros HS. pose proof (lookup_valid _ _ _ HS) as Hlt.
  unfold andFilter. rewrite (bind_ok _ _ _ _ _ (new_list_run _ _)).
  pose proof (simpleFilter_run (length (heap st)) [] c (add_obj [] st)
                (add_obj_lookup_new _ _)) as Hrun.
  rewrite set_obj_new in Hrun. simpl app in Hrun.
  destruct (raised c) as [x|]; simpl in Hrun.
  - by rewrite (bind_raise _ _ _ _ _ Hrun).
  - rewrite (bind_ok _ _ _ _ _ Hrun).
    erewrite bind_ok.
    2:{ apply read_run. by rewrite add_obj_lookup_old. }
    rewrite (bind_ok _ _ _ _ _ (new_list_run _ _)).
    erewrite bind_ok by apply read_run, add_obj_lookup_new.
    erewrite bind_ok; [reflexivity|].
    apply (remove_loop result (length (heap st)) (appended c)) with (K := []).
    + lia.
    + rewrite add_obj_lookup_old; [by rewrite add_obj_lookup_old|].
      simpl. rewrite length_app. lia.
    + rewrite add_obj_lookup_old; [apply add_obj_lookup_new|].
      simpl. rewrite length_app. simpl. lia.
    + intros x Hx. by apply elem_of_nil in Hx.
Qed.

(** ** evaluate and compose *)

Lemma returned_run (m : M loc) (r : loc) (st' : state) (x : option exn)
    (xs : list Z) :
  m empty_store = (finish x r, st') ->
  heap st' !! r = Some xs ->
  returned m = finish x xs.
Proof.
  intros Hm Hr. unfold returned. destruct x as [x|]; simpl in Hm.
  - by rewrite (bind_raise _ _ _ _ _ Hm).
  - rewrite (bind_ok _ _ _ _ _ Hm). by rewrite (read_run _ xs).
Qed.

Lemma evaluate_run c : evaluate c = finish (raised c) (appended c).
Proof.
  unfold evaluate.
  apply returned_run with (r := 0%nat)
    (st' := add_obj (appended c) empty_store); [|done].
  rewrite (bind_ok _ _ _ _ _ (new_list_run _ _)).
  rewrite (simpleFilter_run _ []) by done.
  by rewrite (set_obj_new _ _ empty_store).
Qed.

Lemma returned_new_list (S : list Z) (f : loc -> M loc) :
  returned (l <~ new_list S ; f l) =
    fst ((r <~ f 0%nat ; read r) (add_obj S empty_store)).
Proof.
  reflexivity.
Qed.

Lemma compose_and_run S c :
  compose S c AND =
    finish (raised c) (filter (fun x => x ∈ appended c) S).
Proof.
  unfold compose. rewrite returned_new_list.
  pose proof (andFilter_run 0%nat S c (add_obj S empty_store) eq_refl)
    as Hrun.
  destruct (raised c) as [x|].
  - by rewrite (bind_raise _ _ _ _ _ Hrun).
  - by rewrite (bind_ok _ _ _ _ _ Hrun).
Qed.

Lemma compose_or_run S c :
  compose S c OR = finish (raised c) (list_set (S ++ appended c)).
Proof.
  unfold compose. rewrite returned_new_list.
  pose proof (orFilter_run 0%nat S c (add_obj S empty_store) eq_refl)
    as Hrun.
  destruct (raised c) as [x|].
  - by rewrite (bind_raise _ _ _ _ _ Hrun).
  - by rewrite (bind_ok _ _ _ _ _ Hrun).
Qed.

(** ** What a scan appends *)

Lemma scan_elem_of c es p :
  (scan c es).2 = None ->
  p ∈ (scan c es).1 <->
  exists e, e ∈ es /\ rid e = p /\ satisfies c e = Ok true.
Proof.
  induction es as [|e es IH]; simpl.
  - intros _. split; [by intros ?%elem_of_nil|].
    by intros (e & ?%elem_of_nil & _).
  - destruct (satisfies c e) as [b|x] eqn:Hsat; [|done]. simpl.
    intros Hnone. rewrite elem_of_app, (IH Hnone). split.
    + intros [Hp|(e' & Hin & Hid & Hs)].
      * destruct b; [|by apply elem_of_nil in Hp].
        apply list_elem_of_singleton in Hp. subst p.
        exists e. by rewrite elem_of_cons; auto.
      * exists e'. rewrite elem_of_cons. auto.
    + intros (e' & Hin & Hid & Hs).
      apply elem_of_cons in Hin as [->|Hin].
      * left. rewrite Hsat in Hs. injection Hs as ->.
        subst p. by apply list_elem_of_singleton.
      * right. eauto.
Qed.

Lemma scan_total c es :
  (forall e, e ∈ es -> exists b, satisfies c e = Ok b) ->
  (scan c es).2 = None.
Proof.
  induction es as [|e es IH]; intros Hall; [done|]. simpl.
  destruct (Hall e) as [b ->]; [by left|]. simpl.
  apply IH. intros e' He'. apply Hall. by right.
Qed.

Lemma list_set_elem_of (p : Z) (xs : list Z) : p ∈ list_set xs <-> p ∈ xs.
Proof. unfold list_set. by rewrite elem_of_elements, elem_of_list_to_set. Qed.

Lemma list_set_NoDup (xs : list Z) : NoDup (list_set xs).
Proof. unfold list_set. apply NoDup_elements. Qed.

Lemma list_set_absorb (xs ys : list Z) :
  list_set (list_set (xs ++ ys) ++ ys) = list_set (xs ++ ys).
Proof.
  unfold list_set. f_equal. apply set_eq. intros p.
  rewrite !elem_of_list_to_set, !elem_of_app, elem_of_elements,
    elem_of_list_to_set, elem_of_app.
  tauto.
Qed.

(** ** The AND and OR steps as set operations *)

(** C5: the AND step hands back the accumulated ids that the standalone
    evaluation of the criterion also lists, and no other: a product id is
    in its result if and only if it is in the accumulated list and in
    [evaluate c]; the step raises exactly when the evaluation does. *)
Theorem and_step_is_intersection (S : list Z) (c : criteria) :
  match evaluate c, compose S c AND with
  | Ok E, Ok R => forall p, p ∈ R <-> p ∈ S /\ p ∈ E
  | Raise x, Raise y => x = y
  | _, _ => False
  end.
Proof.
  rewrite evaluate_run, compose_and_run.
  destruct (raised c) as [x|]; simpl; [done|].
  intros p. by rewrite list_elem_of_filter, (comm and).
Qed.

(** C6: the OR step hands back the union of the accumulated ids and the
    standalone evaluation of the criterion: a product id is in its result
    if and only if it is in the accumulated list or in [evaluate c]; on an
    empty accumulated list the result has the ids of [evaluate c] and no
    other.  The step raises exactly when the evaluation does. *)
Theorem or_step_is_union (S : list Z) (c : criteria) :
  match evaluate c, compose S c OR, compose [] c OR with
  | Ok E, Ok R, Ok R0 =>
      (forall p, p ∈ R <-> p ∈ S \/ p ∈ E) /\
      (forall p, p ∈ R0 <-> p ∈ E)
  | Raise x, Raise y, Raise z => x = y /\ x = z
  | _, _, _ => False
  end.
Proof.
  rewrite evaluate_run, !compose_or_run.
  destruct (raised c) as [x|]; simpl; [done|].
  split; intros p; by rewrite list_set_elem_of, ?elem_of_app.
Qed.

(** C8: composing with the same criterion through OR a second time gives
    the set the first composition gave: the second result lists the same
    ids, each once. *)
Theorem or_step_idempotent (S : list Z) (c : criteria) :
  match compose S c OR with
  | Ok R => exists R', compose R c OR = Ok R' /\ R' ≡ₚ R /\ NoDup R'
  | Raise x => forall S', compose S' c OR = Raise x
  end.
Proof.
  rewrite compose_or_run.
  destruct (raised c) as [x|] eqn:Hr; simpl.
  - intros S'. rewrite compose_or_run. by rewrite Hr.
  - exists (list_set (S ++ appended c)). rewrite compose_or_run, Hr. simpl.
    rewrite list_set_absorb. split; [done|]. split; [done|].
    apply list_set_NoDup.
Qed.

(** ** A source without records *)

(** C10: over an empty candidate sequence [simpleFilter] hands back the
    accumulated list it was given and leaves the store as it was, whatever
    the field name and the operator of the criterion are; so a standalone
    evaluation yields no id and no error, and an error can only come out
    of a scan that has a first record. *)
Theorem empty_source_hides_bad_criteria
    (result : loc) (c : criteria) (st : state) :
  elements c = [] ->
  simpleFilter result c st = (Ok result, st) /\
  evaluate c = Ok [] /\
  (forall fld op, simpleFilter result
     {| elements := elements c; value := value c; field := fld;
        operator := op; event := event c |} st = (Ok result, st)).
Proof.
  intros Hnil.
  assert (Hrun : forall c', elements c' = [] ->
            simpleFilter result c' st = (Ok result, st)).
  { intros c' Hc'. unfold simpleFilter. rewrite Hc'. by destruct (event c'). }
  split; [by apply Hrun|]. split.
  - rewrite evaluate_run. unfold raised, appended. by rewrite Hnil.
  - intros fld op. by apply Hrun.
Qed.

Lemma empty_source_hides_bad_criteria_witness :
  simpleFilter 0%nat unknown_field_no_records store_with_9
    = (Ok 0%nat, store_with_9) /\
  evaluate unknown_field_no_records = Ok [].
Proof.
  destruct (empty_source_hides_bad_criteria 0%nat unknown_field_no_records
              store_with_9 eq_refl) as (H1 & H2 & _).
  split; [exact H1 | exact H2].
Defined.

(** ** The AND step works on the caller's list *)

(** C9: when the evaluation of the criterion succeeds, [andFilter] hands
    back the very reference it was given, and the object behind it now
    holds the filtered ids in place of the accumulated ones; every other
    object the caller had is as it was. *)
Theorem and_step_updates_in_place
    (result : loc) (S E : list Z) (c : criteria) (st : state) :
  heap st !! result = Some S ->
  evaluate c = Ok E ->
  exists st',
    andFilter result c st = (Ok result, st') /\
    heap st' !! result = Some (filter (fun p => p ∈ E) S) /\
    (forall l, l <> result -> (l < length (heap st))%nat ->
               heap st' !! l = heap st !! l).
Proof.
  intros HS HE. rewrite evaluate_run in HE.
  pose proof (lookup_valid _ _ _ HS) as Hlt.
  rewrite (andFilter_run _ S) by done.
  destruct (raised c) as [x|]; simpl in HE; [done|]. injection HE as <-.
  eexists. split; [done|]. split.
  - apply set_obj_lookup. simpl. rewrite !length_app. lia.
  - intros l Hne Hl. rewrite set_obj_lookup_ne by done.
    rewrite add_obj_lookup_old by (simpl; rewrite length_app; lia).
    by rewrite add_obj_lookup_old.
Qed.

Lemma and_step_updates_in_place_witness :
  exists st',
    andFilter 0%nat cf_at_least_80 {| heap := [[1; 2; 3; 4]]; printed := [] |}
      = (Ok 0%nat, st') /\
    heap st' !! 0%nat = Some (filter (fun p => p ∈ [2; 3]) [1; 2; 3; 4]).
Proof.
  destruct (and_step_updates_in_place 0%nat [1; 2; 3; 4] [2; 3]
              cf_at_least_80 {| heap := [[1; 2; 3; 4]]; printed := [] |})
    as (st' & H1 & H2 & _).
  - reflexivity.
  - vm_compute. reflexivity.
  - exists st'. split; [exact H1 | exact H2].
Defined.

(** ** Events and the products they belong to *)

Lemma evaluate_three (c : criteria) (e1 e2 e3 : record) (b1 b2 b3 : bool) :
  elements c = [e1; e2; e3] ->
  satisfies c e1 = Ok b1 -> satisfies c e2 = Ok b2 ->
  satisfies c e3 = Ok b3 ->
  evaluate c =
    Ok ((if b1 then [rid e1] else []) ++ (if b2 then [rid e2] else []) ++
        (if b3 then [rid e3] else [])).
Proof.
  intros Hel H1 H2 H3. rewrite evaluate_run. unfold raised, appended.
  rewrite Hel. simpl. rewrite H1. simpl. rewrite H2. simpl. rewrite H3.
  simpl. by rewrite app_nil_r.
Qed.

(** C7: for a criterion over events, a product id is in the output of
    [evaluate] if and only if some event of that product satisfies the
    test on its payload field, and the evaluation does yield an output
    when the test can be made on every event; three events of product 7
    of which exactly one satisfies the criterion yield the list [[7]]. *)
Theorem event_match_is_by_product (c : criteria) :
  event c = true ->
  (forall out, evaluate c = Ok out ->
     forall p, p ∈ out <->
       exists e, e ∈ elements c /\ rid e = p /\
                 (match getitem_args e (field c) with
                  | Ok v => apply_op (operator c) v (value c)
                  | Raise x => Raise x
                  end) = Ok true) /\
  ((forall e, e ∈ elements c -> exists b, satisfies c e = Ok b) ->
   exists out, evaluate c = Ok out) /\
  (forall e1 e2 e3,
     elements c = [e1; e2; e3] ->
     rid e1 = 7 -> rid e2 = 7 -> rid e3 = 7 ->
     (satisfies c e1, satisfies c e2, satisfies c e3) ∈
       [(Ok true, Ok false, Ok false); (Ok false, Ok true, Ok false);
        (Ok false, Ok false, Ok true)] ->
     evaluate c = Ok [7]).
Proof.
  intros Hev. split; [|split].
  - intros out Hout p. rewrite evaluate_run in Hout.
    destruct (raised c) as [x|] eqn:Hr; simpl in Hout; [done|].
    injection Hout as <-. unfold appended. rewrite scan_elem_of by done.
    split; intros (e & Hin & Hid & Hs); exists e;
      by rewrite satisfies_event in * by done.
  - intros Hall. rewrite evaluate_run. unfold raised.
    rewrite scan_total by done. by eexists.
  - intros e1 e2 e3 Hel Hr1 Hr2 Hr3 Hone.
    repeat (apply elem_of_cons in Hone as [Hone|Hone]);
      [| | |by apply elem_of_nil in Hone];
      injection Hone as H1 H2 H3;
      rewrite (evaluate_three c e1 e2 e3 _ _ _ Hel H1 H2 H3);
      simpl; congruence.
Qed.

Lemma event_match_is_by_product_witness :
  evaluate uses_glue = Ok [7] /\
  (7 ∈ [7] <->
   exists e, e ∈ elements uses_glue /\ rid e = 7 /\
             (match getitem_args e (field uses_glue) with
              | Ok v => apply_op (operator uses_glue) v (value uses_glue)
              | Raise x => Raise x
              end) = Ok true).
Proof.
  destruct (event_match_is_by_product uses_glue eq_refl) as (H1 & _ & H3).
  assert (Hev : evaluate uses_glue = Ok [7]).
  { eapply H3; [reflexivity..|]. vm_compute.
    apply elem_of_cons. right. apply elem_of_cons. left. reflexivity. }
  split; [exact Hev | exact (H1 _ Hev 7)].
Defined.

(** ** Criteria that cannot be evaluated *)

Lemma lookup_field_raises c e x :
  lookup_field c e = Raise x ->
  x = if event c then KeyError else AttributeError.
Proof.
  unfold lookup_field, getitem_args, getattr.
  destruct (event c).
  - destruct (String.eqb (field c) "pId"); [done|].
    destruct (rattrs e !! field c); congruence.
  - destruct (String.eqb (field c) "productId"); [done|].
    destruct (rattrs e !! field c); congruence.
Qed.

Lemma apply_op_raises o a b x : apply_op o a b = Raise x -> x = TypeError.
Proof.
  unfold apply_op, py_cmp.
  destruct o; [done|..];
    destruct a, b; simpl; congruence.
Qed.

Lemma satisfies_fault c e :
  ~ recognized c e \/ ~ compatible c e -> satisfies c e = Raise (fault c e).
Proof.
  unfold recognized, compatible, satisfies, fault.
  destruct (lookup_field c e) as [v|x] eqn:Hl.
  - intros [Hn|Hn]; [destruct Hn; by eexists|].
    destruct (apply_op (operator c) v (value c)) as [b|y] eqn:Ha.
    + destruct Hn. intros v' [= <-]. by eexists.
    + by rewrite (apply_op_raises _ _ _ _ Ha).
  - intros _. by rewrite (lookup_field_raises _ _ _ Hl).
Qed.

Lemma simpleFilter_first_raises result c e es st x :
  elements c = e :: es ->
  satisfies c e = Raise x ->
  simpleFilter result c st = (Raise x, st).
Proof.
  intros Hel Hs. unfold simpleFilter. rewrite Hel.
  unfold satisfies, lookup_field in Hs.
  destruct (event c); cbn [for_each]; unfold bind, lift.
  - destruct (getitem_args e (field c)); [|congruence].
    destruct (apply_op (operator c) a (value c)); congruence.
  - destruct (getattr e (field c)); [|congruence].
    destruct (apply_op (operator c) a (value c)); congruence.
Qed.

(** C1, as the code has it: a criterion is only found out by the scan.
    When its field is not an attribute of the first candidate record, or
    its operator cannot compare that record's field with its value (an
    ordering of a string against a number), [simpleFilter] raises at that
    first record, AttributeError or KeyError for the field and TypeError
    for the operator, before it has appended any id: the store is as it
    was. *)
Theorem bad_criteria_raise_at_first_record
    (result : loc) (c : criteria) (e : record) (es : list record)
    (st : state) :
  elements c = e :: es ->
  ~ recognized c e \/ ~ compatible c e ->
  simpleFilter result c st = (Raise (fault c e), st).
Proof.
  intros Hel Hbad. eapply simpleFilter_first_raises; [done|].
  by apply satisfies_fault.
Qed.

Lemma bad_criteria_raise_at_first_record_witness :
  simpleFilter 0%nat unknown_field store_with_9
    = (Raise AttributeError, store_with_9).
Proof.
  apply (bad_criteria_raise_at_first_record 0%nat unknown_field
           (product 1 "chair" "0xA1" 50 false)
           [product 2 "table" "0xB2" 120 true;
            product 3 "shelf" "0xA1" 80 false]).
  - reflexivity.
  - left. intros [v Hv]. vm_compute in Hv. discriminate Hv.
Defined.

(** C1 as written fails: the owner's address with the operator "Greater"
    is evaluated to the end and yields product 2, and a field that no
    record has raises nothing over a source without records. *)
Lemma no_configuration_error :
  evaluate owner_greater = Ok [2] /\
  ~ (exists x, evaluate owner_greater = Raise x) /\
  evaluate unknown_field_no_records = Ok [].
Proof.
  assert (H : evaluate owner_greater = Ok [2]) by (vm_compute; reflexivity).
  split; [exact H|]. split.
  - intros [x Hx]. rewrite H in Hx. discriminate Hx.
  - vm_compute. reflexivity.
Qed.

(** ** A step that raises *)

(** C4, as the code has it: when a step raises, the ids accumulated by the
    earlier steps are still in the accumulated list, in their order; after
    an AND step the list is exactly as it was, after a standalone or an OR
    step the ids of the records that matched before the failing one have
    been appended to it. *)
Theorem failed_step_keeps_accumulated
    (flt : filters) (result : loc) (S : list Z) (c : criteria)
    (st st' : state) (x : exn) :
  heap st !! result = Some S ->
  run_filter flt result c st = (Raise x, st') ->
  raised c = Some x /\
  heap st' !! result =
    Some (match flt with
          | use_andFilter => S
          | use_simpleFilter | use_orFilter => S ++ appended c
          end).
Proof.
  intros HS Hrun. pose proof (lookup_valid _ _ _ HS) as Hlt.
  destruct flt; simpl in Hrun.
  - rewrite (simpleFilter_run _ S) in Hrun by done.
    destruct (raised c) as [y|]; simpl in Hrun; [|done].
    injection Hrun as -> <-. split; [done|]. by apply set_obj_lookup.
  - rewrite (andFilter_run _ S) in Hrun by done.
    destruct (raised c) as [y|]; [|done].
    injection Hrun as -> <-. split; [done|].
    by rewrite add_obj_lookup_old.
  - rewrite (orFilter_run _ S) in Hrun by done.
    destruct (raised c) as [y|]; [|done].
    injection Hrun as -> <-. split; [done|]. by apply set_obj_lookup.
Qed.

Lemma failed_step_keeps_accumulated_witness :
  heap {| heap := [[9; 1]]; printed := [] |} !! 0%nat
    = Some ([9] ++ appended second_record_fails) /\
  heap (add_obj [1] store_with_9) !! 0%nat = Some [9].
Proof.
  split.
  - apply (failed_step_keeps_accumulated use_orFilter 0%nat [9]
             second_record_fails store_with_9
             {| heap := [[9; 1]]; printed := [] |} AttributeError).
    + reflexivity.
    + vm_compute. reflexivity.
  - apply (failed_step_keeps_accumulated use_andFilter 0%nat [9]
             second_record_fails store_with_9
             (add_obj [1] store_with_9) AttributeError).
    + reflexivity.
    + vm_compute. reflexivity.
Defined.

(** C4 as written fails: the OR step below raises at the second record,
    after it has appended product 1 to the accumulated list [[9]]. *)
Lemma failed_or_step_changes_accumulated :
  heap store_with_9 !! 0%nat = Some [9] /\
  exists st',
    orFilter 0%nat second_record_fails store_with_9
      = (Raise AttributeError, st') /\
    heap st' !! 0%nat = Some [9; 1].
Proof.
  split; [reflexivity|].
  exists {| heap := [[9; 1]]; printed := [] |}.
  split; [vm_compute; reflexivity | reflexivity].
Qed.

(** ** Duplicates *)

(** X11: what the OR step hands back holds no id twice, whatever the
    accumulated list it was given held. *)
Lemma or_step_NoDup (S R : list Z) (c : criteria) :
  compose S c OR = Ok R -> NoDup R.
Proof.
  rewrite compose_or_run. destruct (raised c); simpl; [done|].
  intros [= <-]. apply list_set_NoDup.
Qed.

(** X12: the AND step brings in no duplicate: on an accumulated list
    that holds no id twice it hands back a list that holds no id twice. *)
Lemma and_step_NoDup (S R : list Z) (c : criteria) :
  NoDup S -> compose S c AND = Ok R -> NoDup R.
Proof.
  rewrite compose_and_run. destruct (raised c); simpl; [done|].
  intros HS [= <-]. by apply NoDup_filter.
Qed.

(** C2 at two events of product 7 from the same supplier: the criterion
    that [filterProducts] builds for "Supplier" makes the standalone
    evaluation list product 7 twice, the table printed for it has the two
    entries, and an AND step on that list keeps both. *)
Theorem evaluate_lists_one_id_per_event :
  build_criteria id sample_chain (Supplier "0x51") = supplied_by_0x51 /\
  evaluate supplied_by_0x51 = Ok [7; 7] /\
  ~ NoDup [7; 7] /\
  filterProducts id sample_chain default_results use_simpleFilter
    (Exit (Supplier "0x51")) module_loaded
    = (Ok tt, {| heap := [[7; 7]]; printed := [[7; 7]] |}) /\
  compose [7; 7] supplied_by_0x51 AND = Ok [7; 7].
Proof.
  split; [reflexivity|]. split; [vm_compute; reflexivity|]. split.
  - intros Hnd. apply NoDup_cons in Hnd as [Hnin _]. apply Hnin. by left.
  - split; vm_compute; reflexivity.
Qed.

(** ** Sessions *)

(** C3 at two searches started one after the other from the menu: the
    first asks for the product of id 1 and leaves; the second asks for a
    carbon footprint above 1000, which no product has, and still starts
    from, prints and leaves behind the list of the first. *)
Theorem default_results_outlive_the_session :
  main_loop id sample_chain [Exit (Id op_eq 1)] module_loaded
    = (Ok tt, {| heap := [[1]]; printed := [[1]] |}) /\
  evaluate (build_criteria id sample_chain (CF op_gt 1000)) = Ok [] /\
  main_loop id sample_chain [Exit (Id op_eq 1); Exit (CF op_gt 1000)]
    module_loaded
    = (Ok tt, {| heap := [[1]]; printed := [[1]; [1]] |}).
Proof. repeat split; vm_compute; reflexivity. Qed.

(** ** The standalone evaluation, record by record *)

Lemma scan_filter c es :
  (scan c es).2 = None ->
  (scan c es).1 = rid <$> filter (fun e => passes c e) es.
Proof.
  induction es as [|e es IH]; [done|]. simpl. unfold passes at 1.
  destruct (satisfies c e) as [[|]|x] eqn:Hs; simpl; [| |done]; intros Hn.
  - rewrite filter_cons_True by (unfold passes; by rewrite Hs).
    by rewrite IH.
  - rewrite filter_cons_False
      by (unfold passes; rewrite Hs; simpl; tauto).
    by rewrite IH.
Qed.

Lemma scan_raised c es x :
  (scan c es).2 = Some x -> exists e, e ∈ es /\ satisfies c e = Raise x.
Proof.
  induction es as [|e es IH]; [done|]. simpl.
  destruct (satisfies c e) as [b|y] eqn:Hs; simpl.
  - intros Hr. destruct (IH Hr) as (e' & Hin & He'). exists e'.
    split; [by right | done].
  - intros [= ->]. exists e. split; [by left | done].
Qed.

Lemma satisfies_raises c e x :
  satisfies c e = Raise x -> x ∈ [AttributeError; KeyError; TypeError].
Proof.
  unfold satisfies. destruct (lookup_field c e) as [v|y] eqn:Hl.
  - intros ->%apply_op_raises. rewrite !elem_of_cons. auto.
  - intros [= <-]. rewrite (lookup_field_raises _ _ _ Hl).
    destruct (event c); rewrite !elem_of_cons; auto.
Qed.

(** X1: a standalone evaluation either lists, in the order of the source
    and once per record, the product id of every record that passes the
    comparison, or raises what the comparison raised on one of the
    records. *)
Theorem evaluate_lists_passing_records (c : criteria) :
  match evaluate c with
  | Ok out => out = rid <$> filter (fun e => passes c e) (elements c)
  | Raise x => exists e, e ∈ elements c /\ satisfies c e = Raise x
  end.
Proof.
  rewrite evaluate_run. unfold raised, appended.
  destruct (scan c (elements c)).2 as [x|] eqn:Hr; simpl.
  - by apply scan_raised.
  - by apply scan_filter.
Qed.

(** X2: over records whose product ids are all different, as the
    products of a ledger snapshot are, a standalone evaluation lists no
    id twice. *)
Theorem evaluate_unique_ids_no_duplicates (c : criteria) (out : list Z) :
  NoDup (rid <$> elements c) ->
  evaluate c = Ok out ->
  NoDup out.
Proof.
  intros Hnd. rewrite evaluate_run. unfold raised, appended.
  destruct (scan c (elements c)).2 as [x|] eqn:Hr; simpl; [done|].
  intros [= <-]. rewrite scan_filter by done.
  eapply sublist_NoDup; [exact Hnd|]. apply fmap_sublist, sublist_filter.
Qed.

Lemma evaluate_unique_ids_no_duplicates_witness : NoDup [2; 3].
Proof.
  apply (evaluate_unique_ids_no_duplicates cf_at_least_80 [2; 3]).
  - vm_compute. apply NoDup_ListNoDup. repeat constructor; simpl; lia.
  - vm_compute. reflexivity.
Defined.

Lemma evaluate_ok c E :
  evaluate c = Ok E <-> raised c = None /\ appended c = E.
Proof.
  rewrite evaluate_run. destruct (raised c); simpl; split.
  - done.
  - by intros [? _].
  - by intros [= ->].
  - by intros [_ ->].
Qed.

(** ** The lists the filters work on *)

(** X3: when the evaluation of the criterion succeeds, [simpleFilter]
    hands back the reference it was given and creates no list: the ids of
    the evaluation are appended to the caller's list, after what it held,
    and every other list and the output are as they were. *)
Theorem simpleFilter_appends_in_place
    (result : loc) (S E : list Z) (c : criteria) (st : state) :
  heap st !! result = Some S ->
  evaluate c = Ok E ->
  exists st',
    simpleFilter result c st = (Ok result, st') /\
    heap st' !! result = Some (S ++ E) /\
    length (heap st') = length (heap st) /\
    (forall l, l <> result -> heap st' !! l = heap st !! l) /\
    printed st' = printed st.
Proof.
  intros HS [Hr <-]%evaluate_ok.
  rewrite (simpleFilter_run _ S) by done. rewrite Hr. simpl.
  eexists. split; [done|]. split; [|split; [|split]].
  - apply set_obj_lookup. by eapply lookup_valid.
  - apply set_obj_length.
  - intros l Hne. by apply set_obj_lookup_ne.
  - done.
Qed.

Lemma simpleFilter_appends_in_place_witness :
  exists st',
    simpleFilter 0%nat cf_at_least_80 store_with_9 = (Ok 0%nat, st') /\
    heap st' !! 0%nat = Some ([9] ++ [2; 3]).
Proof.
  destruct (simpleFilter_appends_in_place 0%nat [9] [2; 3] cf_at_least_80
              store_with_9) as (st' & H1 & H2 & _).
  - reflexivity.
  - vm_compute. reflexivity.
  - exists st'. split; [exact H1 | exact H2].
Defined.

(** X4: when the evaluation of the criterion succeeds, [orFilter] hands
    back a list that did not exist before, holding each id of the union
    once; the list it was given is not that list, and it has been changed
    all the same: the ids of the evaluation have been appended to it.
    Every other list is as it was. *)
Theorem orFilter_returns_new_list_and_extends_old
    (result : loc) (S E : list Z) (c : criteria) (st : state) :
  heap st !! result = Some S ->
  evaluate c = Ok E ->
  exists r st',
    orFilter result c st = (Ok r, st') /\
    r <> result /\ heap st !! r = None /\
    heap st' !! r = Some (list_set (S ++ E)) /\
    heap st' !! result = Some (S ++ E) /\
    (forall l, l <> result -> l <> r -> heap st' !! l = heap st !! l).
Proof.
  intros HS [Hr <-]%evaluate_ok.
  pose proof (lookup_valid _ _ _ HS) as Hlt.
  rewrite (orFilter_run _ S) by done. rewrite Hr.
  exists (length (heap st)). eexists. split; [done|].
  split; [lia|]. split; [by apply lookup_ge_None|].
  split; [|split].
  - pose proof (add_obj_lookup_new (list_set (S ++ appended c))
                  (set_obj result (S ++ appended c) st)) as Hnew.
    by rewrite set_obj_length in Hnew.
  - rewrite add_obj_lookup_old by (by rewrite set_obj_length).
    by apply set_obj_lookup.
  - intros l Hne Hnr. simpl.
    destruct (decide (l < length (heap st))%nat) as [Hl|Hl].
    + rewrite lookup_app_l by (by rewrite length_insert).
      by apply list_lookup_insert_ne.
    + rewrite (lookup_ge_None_2 (heap st)) by lia.
      apply lookup_ge_None_2. rewrite length_app, length_insert. simpl. lia.
Qed.

Lemma orFilter_returns_new_list_and_extends_old_witness :
  exists r st',
    orFilter 0%nat cf_at_least_80 store_with_9 = (Ok r, st') /\
    r <> 0%nat /\
    heap st' !! 0%nat = Some ([9] ++ [2; 3]).
Proof.
  destruct (orFilter_returns_new_list_and_extends_old 0%nat [9] [2; 3]
              cf_at_least_80 store_with_9)
    as (r & st' & H1 & H2 & _ & _ & H3 & _).
  - reflexivity.
  - vm_compute. reflexivity.
  - exists r, st'. split; [exact H1|]. split; [exact H2 | exact H3].
Defined.

(** ** How the steps compose *)

(** X5: the AND step only drops ids: what it hands back is the
    accumulated list with some entries left out, in the same order, so it
    is never longer; it raises exactly what the evaluation raises. *)
Theorem and_step_keeps_a_sublist (S : list Z) (c : criteria) :
  match compose S c AND with
  | Ok R => R `sublist_of` S /\ (length R <= length S)%nat
  | Raise x => evaluate c = Raise x
  end.
Proof.
  rewrite compose_and_run, evaluate_run.
  destruct (raised c) as [x|]; simpl; [done|].
  split; [apply sublist_filter|]. apply sublist_length, sublist_filter.
Qed.

(** X6: a second AND step with the same criterion changes nothing: it
    hands back the list the first one handed back. *)
Theorem and_step_idempotent (S : list Z) (c : criteria) :
  match compose S c AND with
  | Ok R => compose R c AND = Ok R
  | Raise x => forall S', compose S' c AND = Raise x
  end.
Proof.
  rewrite compose_and_run.
  destruct (raised c) as [x|] eqn:Hr; simpl.
  - intros S'. by rewrite compose_and_run, Hr.
  - rewrite compose_and_run, Hr. simpl. f_equal.
    by apply list_filter_filter_l.
Qed.

(** X7: two AND steps can be taken in either order: both orders hand
    back the same list. *)
Theorem and_steps_commute (S R1 R2 : list Z) (c1 c2 : criteria) :
  compose S c1 AND = Ok R1 ->
  compose S c2 AND = Ok R2 ->
  exists R, compose R1 c2 AND = Ok R /\ compose R2 c1 AND = Ok R.
Proof.
  rewrite !compose_and_run.
  destruct (raised c1) as [x|] eqn:H1; simpl; [done|].
  destruct (raised c2) as [x|] eqn:H2; simpl; [done|].
  intros [= <-] [= <-]. eexists. rewrite ?compose_and_run, ?H1, ?H2. simpl.
  split; [reflexivity|]. f_equal. rewrite !list_filter_filter.
  apply list_filter_iff. intros p. tauto.
Qed.

Lemma and_steps_commute_witness :
  exists R, compose [2; 3] owner_greater AND = Ok R /\
            compose [2] cf_at_least_80 AND = Ok R.
Proof.
  apply (and_steps_commute [1; 2; 3; 4] [2; 3] [2]
           cf_at_least_80 owner_greater); vm_compute; reflexivity.
Defined.

(** X8: the OR step loses nothing: on an accumulated list without
    duplicates it hands back a list at least as long. *)
Theorem or_step_never_shrinks (S R : list Z) (c : criteria) :
  NoDup S ->
  compose S c OR = Ok R ->
  (length S <= length R)%nat.
Proof.
  intros Hnd. rewrite compose_or_run.
  destruct (raised c) as [x|]; simpl; [done|]. intros [= <-].
  apply submseteq_length, NoDup_submseteq; [done|].
  intros p Hp. apply list_set_elem_of, elem_of_app. by left.
Qed.

Lemma or_step_never_shrinks_witness :
  Nat.le (length [1; 5]) (length (list_set [1; 5; 2; 3])).
Proof.
  apply (or_step_never_shrinks [1; 5] (list_set [1; 5; 2; 3])
           cf_at_least_80).
  - apply NoDup_ListNoDup. repeat constructor; simpl; lia.
  - vm_compute. reflexivity.
Defined.

(** X9: two OR steps can be taken in either order: both orders hand back
    the same ids, each once. *)
Theorem or_steps_commute (S R1 R2 : list Z) (c1 c2 : criteria) :
  compose S c1 OR = Ok R1 ->
  compose S c2 OR = Ok R2 ->
  exists R R', compose R1 c2 OR = Ok R /\ compose R2 c1 OR = Ok R' /\
               R ≡ₚ R' /\ NoDup R.
Proof.
  rewrite !compose_or_run.
  destruct (raised c1) as [x|] eqn:H1; simpl; [done|].
  destruct (raised c2) as [x|] eqn:H2; simpl; [done|].
  intros [= <-] [= <-]. do 2 eexists.
  rewrite ?compose_or_run, ?H1, ?H2. simpl.
  split; [reflexivity|]. split; [reflexivity|].
  split; [|apply list_set_NoDup].
  apply NoDup_Permutation; [apply list_set_NoDup..|].
  intros p. rewrite !list_set_elem_of, !elem_of_app, !list_set_elem_of,
    !elem_of_app. tauto.
Qed.

Lemma or_steps_commute_witness :
  exists R R', compose (list_set [1; 2; 3]) owner_greater OR = Ok R /\
               compose (list_set [1; 2]) cf_at_least_80 OR = Ok R' /\
               R ≡ₚ R'.
Proof.
  destruct (or_steps_commute [1] (list_set [1; 2; 3]) (list_set [1; 2])
              cf_at_least_80 owner_greater)
    as (R & R' & H1 & H2 & H3 & _).
  - vm_compute. reflexivity.
  - vm_compute. reflexivity.
  - exists R, R'. split; [exact H1|]. split; [exact H2 | exact H3].
Defined.

(** ** What a filter can raise *)

Lemma run_filter_raised flt result S c st st' x :
  heap st !! result = Some S ->
  run_filter flt result c st = (Raise x, st') ->
  raised c = Some x.
Proof.
  intros HS Hrun. destruct flt; simpl in Hrun.
  - rewrite (simpleFilter_run _ S) in Hrun by done.
    destruct (raised c); simpl in Hrun; congruence.
  - rewrite (andFilter_run _ S) in Hrun by done.
    destruct (raised c); congruence.
  - rewrite (orFilter_run _ S) in Hrun by done.
    destruct (raised c); congruence.
Qed.

(** X10: whatever a filter raises was raised by the comparison on one of
    the candidate records, an AttributeError, a KeyError or a TypeError;
    in particular [result.remove(e)] in [andFilter] never fails with a
    ValueError. *)
Theorem filters_raise_what_a_record_raised
    (flt : filters) (result : loc) (S : list Z) (c : criteria)
    (st st' : state) (x : exn) :
  heap st !! result = Some S ->
  run_filter flt result c st = (Raise x, st') ->
  x <> ValueError /\
  exists e, e ∈ elements c /\ satisfies c e = Raise x.
Proof.
  intros HS Hrun.
  pose proof (run_filter_raised _ _ _ _ _ _ _ HS Hrun) as Hr.
  destruct (scan_raised _ _ _ Hr) as (e & Hin & He).
  split; [|by exists e].
  apply satisfies_raises in He. intros ->.
  rewrite !elem_of_cons in He. by destruct He as [?|[?|[?|?%elem_of_nil]]].
Qed.

Lemma filters_raise_what_a_record_raised_witness :
  AttributeError <> ValueError /\
  exists e, e ∈ elements second_record_fails /\
            satisfies second_record_fails e = Raise AttributeError.
Proof.
  apply (filters_raise_what_a_record_raised use_andFilter 0%nat [9]
           second_record_fails store_with_9 (add_obj [1] store_with_9)).
  - reflexivity.
  - vm_compute. reflexivity.
Defined.

(** ** Duplicates, step by step *)

Lemma or_step_NoDup_witness : NoDup (list_set [7; 7; 7; 7]).
Proof.
  apply (or_step_NoDup [7; 7] (list_set [7; 7; 7; 7]) supplied_by_0x51).
  vm_compute. reflexivity.
Defined.

Lemma and_step_NoDup_witness : NoDup [2; 3].
Proof.
  apply (and_step_NoDup [1; 2; 3; 4] [2; 3] cf_at_least_80).
  - apply NoDup_ListNoDup. repeat constructor; simpl; lia.
  - vm_compute. reflexivity.
Defined.

(** ** The criteria of filterProducts on a typed ledger *)

Lemma typed_satisfies tc chain f e :
  ledger_typed chain ->
  e ∈ elements (build_criteria tc chain f) ->
  exists b, satisfies (build_criteria tc chain f) e = Ok b.
Proof.
  intros [Hp Hev] Hin. rewrite Forall_forall in Hp, Hev.
  destruct f as [op v|v|v|op v|v|v|v|v]; simpl in Hin;
    [ destruct (Hp e Hin) as ([s Hn] & [a Ha] & [z Hz] & [b Hb]) ..
    | destruct (Hev e Hin) as ([s Hs] & [t Ht] & [n Hn])
    | destruct (Hev e Hin) as ([s Hs] & [t Ht] & [n Hn])
    | destruct (Hev e Hin) as ([s Hs] & [t Ht] & [n Hn]) ];
    unfold satisfies, lookup_field, getattr, getitem_args; simpl;
    rewrite ?Hn, ?Ha, ?Hz, ?Hb, ?Hs, ?Ht; simpl; try (by eexists);
    destruct op; simpl; by eexists.
Qed.

(** X13: on a ledger whose products carry a name, an address, a carbon
    footprint and an ended flag, and whose events carry a supplier, a
    transformer and a name, every criterion that [filterProducts] can
    build, with any operator the user picks for the id and the carbon
    footprint, is evaluated without an exception. *)
Theorem built_criteria_never_raise
    (toChecksumAddress : string -> string) (chain : ledger)
    (f : field_choice) :
  ledger_typed chain ->
  exists out, evaluate (build_criteria toChecksumAddress chain f) = Ok out.
Proof.
  intros Hty. rewrite evaluate_run. unfold raised.
  rewrite scan_total; [by eexists|].
  intros e He. by apply typed_satisfies.
Qed.

Lemma built_criteria_never_raise_witness :
  exists out,
    evaluate (build_criteria id sample_chain (CF op_lt 100)) = Ok out.
Proof.
  apply (built_criteria_never_raise id sample_chain (CF op_lt 100)).
  split; repeat constructor; eexists; reflexivity.
Defined.

(** ** A whole session *)

Lemma print_products_run ids xs st :
  heap st !! ids = Some xs ->
  print_products ids st =
    (Ok tt, {| heap := heap st; printed := printed st ++ [xs] |}).
Proof.
  intros H. unfold print_products.
  by rewrite (bind_ok _ _ _ _ _ (read_run _ _ _ H)).
Qed.










(** ** Python strings *)

Lemma append_cons (x : ascii) (a b : string) :
  String x a +:+ b = String x (a +:+ b).
Proof. reflexivity. Qed.

Lemma append_nil (b : string) : "" +:+ b = b.
Proof. reflexivity. Qed.

Lemma length_append (a b : string) :
  String.length (a +:+ b) = (String.length a + String.length b)%nat.
Proof.
  induction a as [|c a IH]; [done|].
  rewrite append_cons. simpl. by rewrite IH.
Qed.

Lemma append_assoc (a b c : string) : (a +:+ b) +:+ c = a +:+ b +:+ c.
Proof.
  induction a as [|x a IH]; [done|]. rewrite !append_cons. by rewrite IH.
Qed.

Lemma length_str_mul_space (n : Z) :
  String.length (str_mul " " n) = Z.to_nat n.
Proof.
  unfold str_mul. induction (Z.to_nat n) as [|k IH]; [done|].
  cbn [str_repeat]. rewrite length_append. simpl. by rewrite IH.
Qed.

Lemma length_substring_0 (n : nat) (s : string) :
  String.length (substring 0 n s) = Nat.min n (String.length s).
Proof.
  revert s. induction n as [|n IH]; intros [|c s]; simpl; try done.
  by rewrite IH.
Qed.

Lemma substring_0_append (a b : string) :
  substring 0 (String.length a) (a +:+ b) = a.
Proof.
  induction a as [|c a IH]; [by destruct b|].
  rewrite append_cons. simpl. by rewrite IH.
Qed.

(** The text that starts where [a] ends. *)
Lemma substring_after (a b c : string) :
  substring (String.length a) (String.length b) (a +:+ b +:+ c) = b.
Proof.
  induction a as [|x a IH].
  - rewrite append_nil. apply substring_0_append.
  - rewrite append_cons. simpl. exact IH.
Qed.

(** ** RawMaterial.__str__ *)

Lemma name_column_length (self : RawMaterial.t) :
  String.length (RawMaterial.name_column self) = 30%nat.
Proof.
  unfold RawMaterial.name_column, len.
  destruct (Z.leb_spec (Z.of_nat (String.length (RawMaterial.name self))) 25).
  - rewrite length_append, length_str_mul_space. lia.
  - rewrite !length_append, length_str_mul_space, length_substring_0.
    change (String.length "...") with 3%nat. lia.
Qed.

Lemma number_column_length (digits : string) (narrow : bool) :
  (narrow = true -> len digits <= 6) ->
  (narrow = false -> 6 <= len digits) ->
  String.length
    (if narrow then digits +:+ str_mul " " (11 - len digits)
     else digits +:+ str_mul " " 5)
  = Nat.max 11 (String.length digits + 5).
Proof.
  unfold len. intros Ht Hf.
  destruct narrow; rewrite length_append, length_str_mul_space.
  - specialize (Ht eq_refl). lia.
  - specialize (Hf eq_refl). simpl. lia.
Qed.

Lemma lot_column_length (self : RawMaterial.t) :
  String.length (RawMaterial.lot_column self) =
    Nat.max 11 (String.length (str_int (RawMaterial.lot self)) + 5).
Proof.
  unfold RawMaterial.lot_column. apply number_column_length.
  - intros H. by apply Z.leb_le.
  - intros H. apply Z.leb_gt in H. lia.
Qed.

Lemma cf_column_length (self : RawMaterial.t) :
  String.length (RawMaterial.cf_column self) =
    Nat.max 11 (String.length (str_int (RawMaterial.cf self)) + 5).
Proof.
  unfold RawMaterial.cf_column. apply number_column_length.
  - intros H. apply Z.ltb_lt in H. lia.
  - intros H. apply Z.ltb_ge in H. lia.
Qed.

Lemma lot_column_digits (self : RawMaterial.t) :
  exists padding,
    RawMaterial.lot_column self = str_int (RawMaterial.lot self) +:+ padding.
Proof.
  unfold RawMaterial.lot_column.
  destruct (len (str_int (RawMaterial.lot self)) <=? 6); by eexists.
Qed.

(** X16: the name column of the line that [__str__] builds for a raw
    material is 30 characters wide whatever the name is, short, long or
    empty: the digits of the lot always start at column 30. *)
Theorem raw_material_lot_starts_at_column_30 (self : RawMaterial.t) :
  String.length (RawMaterial.name_column self) = 30%nat /\
  substring 30 (String.length (str_int (RawMaterial.lot self)))
    (RawMaterial.__str__ self) = str_int (RawMaterial.lot self).
Proof.
  split; [apply name_column_length|].
  unfold RawMaterial.__str__.
  destruct (lot_column_digits self) as [padding ->].
  rewrite append_assoc, <- (name_column_length self).
  apply substring_after.
Qed.

(** X17: the lot column and the carbon footprint column are both as wide
    as the longer of 11 and the digits plus 5 blanks, although one is
    tested with "at most 6" and the other with "below 6"; so the address
    of the supplier starts at the column that is the sum of the three
    widths, which is column 52 whenever both numbers have at most 6
    characters. *)
Theorem raw_material_number_columns (self : RawMaterial.t) :
  let l := String.length (str_int (RawMaterial.lot self)) in
  let c := String.length (str_int (RawMaterial.cf self)) in
  String.length (RawMaterial.lot_column self) = Nat.max 11 (l + 5) /\
  String.length (RawMaterial.cf_column self) = Nat.max 11 (c + 5) /\
  substring (30 + Nat.max 11 (l + 5) + Nat.max 11 (c + 5))
    (String.length (RawMaterial.address self))
    (RawMaterial.__str__ self) = RawMaterial.address self /\
  ((l <= 6)%nat -> (c <= 6)%nat ->
   substring 52 (String.length (RawMaterial.address self))
     (RawMaterial.__str__ self) = RawMaterial.address self).
Proof.
  intros l c.
  assert (Hat : substring (30 + Nat.max 11 (l + 5) + Nat.max 11 (c + 5))
            (String.length (RawMaterial.address self))
            (RawMaterial.__str__ self) = RawMaterial.address self).
  { unfold RawMaterial.__str__, l, c.
    rewrite <- (name_column_length self), <- lot_column_length,
      <- cf_column_length, <- !length_append.
    rewrite <- (append_assoc (RawMaterial.name_column self)),
      <- (append_assoc (RawMaterial.name_column self +:+
                        RawMaterial.lot_column self)).
    apply substring_after. }
  split; [apply lot_column_length|]. split; [apply cf_column_length|].
  split; [exact Hat|]. intros Hl Hc.
  replace 52%nat with (30 + Nat.max 11 (l + 5) + Nat.max 11 (c + 5))%nat
    by lia.
  exact Hat.
Qed.

Lemma raw_material_number_columns_witness :
  substring 52 (String.length (RawMaterial.address oak))
    (RawMaterial.__str__ oak) = RawMaterial.address oak.
Proof.
  destruct (raw_material_number_columns oak) as (_ & _ & _ & H).
  apply H; vm_compute; lia.
Defined.

(** ** The rows of Product.__str__ *)

(** X18: in the table of raw materials that [Product.__str__] builds
    there is one row per raw material, in their order, and no name in it
    is longer than 25 characters: a name of at most 25 characters is shown
    as it is, a longer one as its first 22 characters and three dots. *)
Theorem printable_rows_fit (self : Product.t) :
  length (Product.raw_materials_printable self) =
    length (Product.rawMaterials self) /\
  (forall i raw, Product.rawMaterials self !! i = Some raw ->
     exists shown,
       Product.raw_materials_printable self !! i =
         Some (shown, RawMaterial.lot raw, RawMaterial.cf raw,
               RawMaterial.address raw) /\
       (String.length shown <= 25)%nat /\
       ((String.length (RawMaterial.name raw) <= 25)%nat ->
        shown = RawMaterial.name raw) /\
       ((25 < String.length (RawMaterial.name raw))%nat ->
        shown = substring 0 22 (RawMaterial.name raw) +:+ "...")).
Proof.
  unfold Product.raw_materials_printable. split; [apply length_fmap|].
  intros i raw Hi. eexists. split.
  { rewrite list_lookup_fmap, Hi. reflexivity. }
  unfold Product.printable_name, len.
  destruct (Z.ltb_spec 25 (Z.of_nat (String.length (RawMaterial.name raw)))).
  - split; [|split; [lia|done]].
    rewrite length_append, length_substring_0.
    change (String.length "...") with 3%nat. lia.
  - split; [lia|]. split; [done|lia].
Qed.

Lemma printable_rows_fit_witness :
  exists shown,
    Product.raw_materials_printable chair !! 1%nat =
      Some (shown, 3, 1, "0x52") /\
    shown = substring 0 22 (RawMaterial.name glue) +:+ "...".
Proof.
  destruct (printable_rows_fit chair) as [_ H].
  destruct (H 1%nat glue eq_refl) as (shown & H1 & _ & _ & H2).
  exists shown. split; [exact H1|]. apply H2. vm_compute. lia.
Defined.

(** ** The menus of transformer.py *)

Lemma comprehension_raises {A B} (f : A -> outcome B) (x : exn)
    (xs : list A) :
  (forall a, f a = Raise x) -> xs <> [] -> comprehension f xs = Raise x.
Proof. intros Hf Hne. destruct xs as [|a xs]; [done|]. simpl. by rewrite Hf. Qed.

Lemma comprehension_total {A B} (g : A -> B) (xs : list A) :
  comprehension (fun a => Ok (g a)) xs = Ok (g <$> xs).
Proof. induction xs as [|a xs IH]; simpl; [done|]. by rewrite IH. Qed.

(** X19: building the menu of [transfer_product] compares the name of a
    product with the number 25, which raises a TypeError; so the menu
    can only be built for a user who has nothing to transfer.  The
    choices come out, and are empty, exactly when the user owns no
    product that is still in the works; as soon as there is one, the
    function raises before it asks anything.  The menu of
    [add_transformation], over the same products, always comes out, with
    one choice per product. *)
Theorem transfer_menu_raises_for_any_owner
    (all_products : list Product.t) (user_address : string) :
  match transfer_product_choices all_products user_address with
  | Ok choices =>
      choices = [] /\
      forall p, p ∈ all_products ->
        ~ (Product.address p = user_address /\ Product.is_ended p = false)
  | Raise x =>
      x = TypeError /\
      exists p, p ∈ all_products /\ Product.address p = user_address /\
                Product.is_ended p = false
  end /\
  add_transformation_choices all_products user_address =
    Ok ((fun p => (Product.name p, Product.product_id p)) <$>
        get_updatable_user_products all_products user_address).
Proof.
  split; [|apply comprehension_total].
  unfold transfer_product_choices.
  destruct (get_updatable_user_products all_products user_address)
    as [|p ps] eqn:Hup.
  - simpl. split; [done|]. intros p Hp Hown.
    assert (Hin : p ∈ get_updatable_user_products all_products user_address)
      by (by apply list_elem_of_filter).
    rewrite Hup in Hin. by apply elem_of_nil in Hin.
  - rewrite (comprehension_raises _ TypeError) by done.
    split; [done|]. exists p.
    assert (Hin : p ∈ get_updatable_user_products all_products user_address)
      by (rewrite Hup; by left).
    apply list_elem_of_filter in Hin as [[Ha He] Hin]. auto.
Qed.

(** ** The lists handed to createRawMaterials *)

Lemma foldl_append_raw_mat (rms : list RawMaterial.t)
    (acc : createRawMaterials_args) :
  foldl append_raw_mat acc rms =
    {| rm_name_list := rm_name_list acc ++ (RawMaterial.name <$> rms);
       rm_lot_list := rm_lot_list acc ++ (RawMaterial.lot <$> rms);
       rm_cf_list := rm_cf_list acc ++ (RawMaterial.cf <$> rms);
       rm_tr_list := rm_tr_list acc ++
                     (RawMaterial.transformer_address <$> rms) |}.
Proof.
  revert acc. induction rms as [|rm rms IH]; intros acc; simpl.
  - destruct acc. simpl. by rewrite !app_nil_r.
  - rewrite IH. simpl. by rewrite <- !app_assoc.
Qed.

(** X20: the four lists that [create_raw_materials_on_blockchain] hands
    to the contract are as long as the list of raw materials it was
    given, and the entries at one position are the name, the lot, the
    carbon footprint and the transformer of the raw material at that
    position. *)
Theorem create_raw_materials_lists_are_parallel
    (raw_materials : list RawMaterial.t) :
  let args := create_raw_materials_args raw_materials in
  length (rm_name_list args) = length raw_materials /\
  length (rm_lot_list args) = length raw_materials /\
  length (rm_cf_list args) = length raw_materials /\
  length (rm_tr_list args) = length raw_materials /\
  forall i raw_mat,
    raw_materials !! i = Some raw_mat ->
    rm_name_list args !! i = Some (RawMaterial.name raw_mat) /\
    rm_lot_list args !! i = Some (RawMaterial.lot raw_mat) /\
    rm_cf_list args !! i = Some (RawMaterial.cf raw_mat) /\
    rm_tr_list args !! i = Some (RawMaterial.transformer_address raw_mat).
Proof.
  unfold create_raw_materials_args. rewrite foldl_append_raw_mat. simpl.
  rewrite !length_fmap. repeat split; try done;
    rewrite list_lookup_fmap; by rewrite H.
Qed.

Lemma create_raw_materials_lists_are_parallel_witness :
  rm_tr_list (create_raw_materials_args [oak; glue]) !! 1%nat = Some None.
Proof.
  destruct (create_raw_materials_lists_are_parallel [oak; glue])
    as (_ & _ & _ & _ & H).
  destruct (H 1%nat glue eq_refl) as (_ & _ & _ & Ht). exact Ht.
Defined.

(** ** name_input_validation *)

Lemma space_append (s : string) : " " +:+ s = String " " s.
Proof. reflexivity. Qed.

Lemma lstrip_spaces (n : nat) (s : string) :
  lstrip (str_repeat " " n +:+ s) = lstrip s.
Proof.
  induction n as [|n IH]; [done|]. cbn [str_repeat].
  by rewrite space_append, append_cons.
Qed.

Lemma rstrip_only_spaces (m : nat) : rstrip (str_repeat " " m) = "".
Proof.
  induction m as [|m IH]; [done|]. cbn [str_repeat].
  rewrite space_append. simpl. by rewrite IH.
Qed.

Lemma rstrip_spaces (s : string) (m : nat) :
  rstrip (s +:+ str_repeat " " m) = rstrip s.
Proof.
  induction s as [|c s IH].
  - rewrite append_nil. apply rstrip_only_spaces.
  - rewrite append_cons. simpl. by rewrite IH.
Qed.

Lemma strip_spaces_right (s : string) (m : nat) :
  strip (s +:+ str_repeat " " m) = strip s.
Proof.
  unfold strip. induction s as [|c s IH].
  - rewrite append_nil. simpl.
    induction m as [|m IHm]; [done|]. cbn [str_repeat].
    rewrite space_append. simpl. exact IHm.
  - rewrite append_cons. simpl. destruct (Ascii.eqb c " "); [exact IH|].
    rewrite <- append_cons. apply rstrip_spaces.
Qed.

Lemma strip_padding (n m : nat) (s : string) :
  strip (str_repeat " " n +:+ s +:+ str_repeat " " m) = strip s.
Proof.
  unfold strip. rewrite lstrip_spaces. apply strip_spaces_right.
Qed.

(** X21: blanks around the name do not count: the verdict on a name with
    any number of blanks before and after it is the verdict on the name
    itself.  So the text that is accepted, which is the text handed on,
    is not kept to 50 characters: "ab" after any number of blanks is
    accepted. *)
Theorem name_validation_ignores_padding
    (answers : gmap string string) (current : string) (n m : nat) :
  name_input_validation answers
    (str_repeat " " n +:+ current +:+ str_repeat " " m)
  = name_input_validation answers current /\
  name_input_validation answers (str_repeat " " n +:+ "ab") = ReturnsTrue /\
  String.length (str_repeat " " n +:+ "ab") = (n + 2)%nat.
Proof.
  unfold name_input_validation. split; [by rewrite strip_padding|]. split.
  - unfold strip. by rewrite lstrip_spaces.
  - rewrite length_append. f_equal.
    induction n as [|n IH]; [done|]. cbn [str_repeat].
    rewrite space_append. simpl. by rewrite IH.
Qed.

Lemma lstrip_head (s : string) :
  lstrip s = "" \/
  exists c r, lstrip s = String c r /\ Ascii.eqb c " " = false.
Proof.
  induction s as [|c s IH]; [by left|]. simpl.
  destruct (Ascii.eqb c " ") eqn:Hc; [exact IH|]. right. by exists c, s.
Qed.

Lemma rstrip_head (c : ascii) (s : string) :
  Ascii.eqb c " " = false -> exists r, rstrip (String c s) = String c r.
Proof.
  intros Hc. simpl. destruct (rstrip s); rewrite ?Hc; by eexists.
Qed.

Lemma strip_head (s : string) (c : ascii) (r : string) :
  strip s = String c r -> Ascii.eqb c " " = false.
Proof.
  unfold strip. destruct (lstrip_head s) as [->|(c' & r' & -> & Hc')]; [done|].
  destruct (rstrip_head c' r' Hc') as [r'' ->]. by intros [= <- _].
Qed.

Lemma before_final_newline_Some (s t : string) :
  before_final_newline s = Some t ->
  String.length s = S (String.length t) /\
  forall c t', t = String c t' -> exists r, s = String c r.
Proof.
  revert t. induction s as [|c s IH]; intros t; [done|]. simpl.
  destruct s as [|c' s'].
  - destruct (Ascii.eqb c "010"); [|done]. by intros [= <-].
  - destruct (before_final_newline (String c' s')) as [u|]; [|done].
    intros [= <-]. destruct (IH u eq_refl) as [Hlen _]. split.
    + simpl in *. lia.
    + intros c0 t' [= <- <-]. by eexists.
Qed.

Lemma class_2_50_inv (s : string) :
  class_2_50 s = true ->
  (2 <= String.length s <= 50)%nat /\
  exists c r, s = String c r /\ in_class c = true.
Proof.
  unfold class_2_50. rewrite !andb_true_iff, !Nat.leb_le.
  intros [[Hall H2] H50]. split; [lia|].
  destruct s as [|c r]; [simpl in H2; lia|].
  simpl in Hall. apply andb_true_iff in Hall as [Hc _]. by exists c, r.
Qed.

(** X22: a name is only accepted when, once the blanks around it are
    dropped, it starts with a letter or a digit and has between 2 and 51
    characters (50, and the line feed the pattern lets through at the
    end); so no answer made of blanks only, of a single character, or
    that starts with a sign after the blanks, is accepted. *)
Theorem accepted_names_start_with_alnum
    (answers : gmap string string) (current : string) :
  name_input_validation answers current = ReturnsTrue ->
  exists c rest,
    strip current = String c rest /\
    is_alnum c = true /\
    (2 <= String.length (strip current) <= 51)%nat.
Proof.
  unfold name_input_validation, re_match_name.
  destruct (class_2_50 (strip current)) eqn:Hc; simpl.
  - intros _. destruct (class_2_50_inv _ Hc) as [Hlen (c & r & Hs & Hin)].
    exists c, r. split; [done|]. split; [|lia].
    unfold in_class in Hin. rewrite (strip_head _ _ _ Hs) in Hin.
    by rewrite orb_false_r in Hin.
  - destruct (before_final_newline (strip current)) as [t|] eqn:Hb; [|done].
    destruct (class_2_50 t) eqn:Ht; [|done]. intros _.
    destruct (class_2_50_inv _ Ht) as [Hlen (c & r & -> & Hin)].
    destruct (before_final_newline_Some _ _ Hb) as [Hl Hhead].
    destruct (Hhead c r eq_refl) as [r' Hs].
    exists c, r'. split; [done|]. split; [|lia].
    unfold in_class in Hin. rewrite (strip_head _ _ _ Hs) in Hin.
    by rewrite orb_false_r in Hin.
Qed.

Lemma accepted_names_start_with_alnum_witness :
  exists c rest,
    strip "  oak wood " = String c rest /\ is_alnum c = true.
Proof.
  destruct (accepted_names_start_with_alnum ∅ "  oak wood " eq_refl)
    as (c & rest & H1 & H2 & _).
  exists c, rest. split; [exact H1 | exact H2].
Defined.

(** ** A search started from the menu *)

Lemma bind_bind {A B C} (m : M A) (k1 : A -> M B) (k2 : B -> M C) st :
  bind (bind m k1) k2 st = bind m (fun a => bind (k1 a) k2) st.
Proof. unfold bind. by destruct (m st) as [[a|x] st']. Qed.

(** X23: a search of one step started from the menu works on the list
    that [filterProducts] has as the default of [results]: when the
    criterion is evaluated without an exception, the ids it matches are
    appended to what that list held before, the whole list is what is
    shown, and it is what the list holds when the search is over. *)
Theorem menu_search_appends_to_default_results
    (toChecksumAddress : string -> string) (chain : ledger)
    (f : field_choice) (prev E : list Z) (st : state) :
  heap st !! default_results = Some prev ->
  evaluate (build_criteria toChecksumAddress chain f) = Ok E ->
  exists st',
    main_loop toChecksumAddress chain [Exit f] st = (Ok tt, st') /\
    heap st' !! default_results = Some (prev ++ E) /\
    printed st' =
      printed st ++ (if (0 <? length (prev ++ E))%nat then [prev ++ E]
                     else []).
Proof.
  intros HS [Hr <-]%evaluate_ok.
  pose proof (lookup_valid _ _ _ HS) as Hlt.
  unfold main_loop. cbn [for_each filterProducts chosen run_filter].
  pose proof (simpleFilter_run default_results prev
                (build_criteria toChecksumAddress chain f) st HS) as Hrun.
  rewrite Hr in Hrun. simpl finish in Hrun.
  set (c := build_criteria toChecksumAddress chain f) in *.
  assert (Hnew : heap (set_obj default_results (prev ++ appended c) st)
                   !! default_results = Some (prev ++ appended c))
    by (by apply set_obj_lookup).
  rewrite bind_bind, (bind_ok _ _ _ _ _ Hrun).
  rewrite bind_bind, (bind_ok _ _ _ _ _ (read_run _ _ _ Hnew)).
  rewrite bind_bind.
  destruct (0 <? length (prev ++ appended c))%nat.
  - rewrite (bind_ok _ _ _ _ _ (print_products_run _ _ _ Hnew)).
    eexists. split; [reflexivity|]. by split.
  - eexists. split; [reflexivity|]. split; [done|].
    simpl. by rewrite app_nil_r.
Qed.

Lemma menu_search_appends_to_default_results_witness :
  exists st',
    main_loop id sample_chain [Exit (Id op_eq 1)]
      {| heap := [[1]]; printed := [[1]] |} = (Ok tt, st') /\
    heap st' !! default_results = Some ([1] ++ [1]).
Proof.
  destruct (menu_search_appends_to_default_results id sample_chain
              (Id op_eq 1) [1] [1] {| heap := [[1]]; printed := [[1]] |})
    as (st' & H1 & H2 & _).
  - reflexivity.
  - vm_compute. reflexivity.
  - exists st'. split; [exact H1 | exact H2].
Defined.
